(** * A shallow embedding of the banking ledger of BankingAppRust

    Sources: [src/src/primitives.rs] (types, constants, events, errors) and
    [src/src/bank.rs] (the [Bank] struct and its methods).

    Modelling choices:
    - [f64] is Rocq's primitive binary64 [float]: IEEE-754 arithmetic with
      round-to-nearest-even, the same as Rust's [f64]; comparisons are the IEEE
      ones ([NaN] compares false), written as the code writes them.
    - [u64] identifiers and hash results are [N]; the user id counter wraps at
      2^64 as release builds of Rust do.
    - The two [HashMap]s are stdpp [gmap]s.  Where the code iterates a map
      ([iter], [iter_mut]) the iteration order of Rust's [HashMap] is
      unspecified; the model iterates in the order of [map_to_list].
    - [DefaultHasher] (SipHash-1-3 of the Rust standard library) is not part of
      this repository; the development is generic in the hash function
      ([Variable hash]) which [Bank::hash] computes from a username and a
      password.  Concrete runs use an injective stand-in ([model_hash]) or a
      model of [DefaultHasher::new()] itself ([default_hash]).
    - Printing ([println!]) is not modelled, except that the read-only
      reporting functions return what they print. *)

From Stdlib Require Import Floats Ascii String.
From stdpp Require Import base gmap strings list.

(** The rate literals 0.01 and 0.02 round to their nearest binary64 values,
    as in Rust. *)
Local Set Warnings "-inexact-float".

(* ------------------------------------------------------------------ *)
(** ** primitives.rs *)

Definition UserId := N.
Definition Balance := float.
Definition HashResult := N.

Definition INTEREST_RATE : float := 0.01%float.
Definition TAX_RATE : float := 0.02%float.
Definition ED : Balance := 5%float.

(** [f64::MAX] *)
Definition Balance_MAX : Balance := 0x1.fffffffffffffp+1023%float.

Inductive Role := Customer | Manager | Auditor.

#[global] Instance Role_eq_dec : EqDecision Role.
Proof. solve_decision. Defined.

Definition role_eqb (r1 r2 : Role) : bool := bool_decide (r1 = r2).

Record User := mkUser {
  id : UserId;
  username : string;
  role : Role
}.

Inductive BankingError :=
  | Unauthorized
  | InsufficientBalance
  | InvalidAmount
  | FailedLogin
  | NoUserFound
  | AmountTooSmall
  | InvalidUserId
  | InvalidTaxRate
  | InvalidInterestRate
  | UserAlreadyExist.

(** [BankResult<T> = Result<T, BankingError>] *)
Inductive BankResult (A : Type) :=
  | Ok (a : A)
  | Err (e : BankingError).
Arguments Ok {A} a.
Arguments Err {A} e.

Inductive Event :=
  | Deposit (id : UserId) (amount : Balance)
  | Withdrawal (id : UserId) (amount : Balance)
  | AccountReaped (id : UserId) (dust : Balance)
  | Transfer (id : UserId) (to_id : UserId) (amount : Balance)
  | Interest (id : UserId) (interest : Balance)
  | Tax (id : UserId) (tax : Balance)
  | InterestRate (id : UserId) (interest_rate : float)
  | TaxRate (id : UserId) (tax_rate : float).

(* ------------------------------------------------------------------ *)
(** ** bank.rs: the state *)

Record Bank := mkBank {
  users : gmap HashResult User;
  balances : gmap UserId Balance;
  events : list Event;
  interest_rate : float;
  tax_rate : float;
  existential_deposit : Balance;
  user_id_counter : UserId
}.

(** [impl Default for Bank] *)
Definition Bank_default : Bank := {|
  users := ∅;
  balances := ∅;
  events := [];
  interest_rate := INTEREST_RATE;
  tax_rate := TAX_RATE;
  existential_deposit := ED;
  user_id_counter := 0%N
|}.

(** Field updates of [&mut self]. *)
Definition with_users (f : gmap HashResult User -> gmap HashResult User) (s : Bank) : Bank :=
  mkBank (f (users s)) (balances s) (events s) (interest_rate s) (tax_rate s)
         (existential_deposit s) (user_id_counter s).
Definition with_balances (f : gmap UserId Balance -> gmap UserId Balance) (s : Bank) : Bank :=
  mkBank (users s) (f (balances s)) (events s) (interest_rate s) (tax_rate s)
         (existential_deposit s) (user_id_counter s).
Definition with_events (f : list Event -> list Event) (s : Bank) : Bank :=
  mkBank (users s) (balances s) (f (events s)) (interest_rate s) (tax_rate s)
         (existential_deposit s) (user_id_counter s).
Definition with_interest_rate (r : float) (s : Bank) : Bank :=
  mkBank (users s) (balances s) (events s) r (tax_rate s)
         (existential_deposit s) (user_id_counter s).
Definition with_tax_rate (r : float) (s : Bank) : Bank :=
  mkBank (users s) (balances s) (events s) (interest_rate s) r
         (existential_deposit s) (user_id_counter s).
Definition with_counter (c : UserId) (s : Bank) : Bank :=
  mkBank (users s) (balances s) (events s) (interest_rate s) (tax_rate s)
         (existential_deposit s) c.

(* ------------------------------------------------------------------ *)
(** ** A state-and-error monad for [&mut self] methods

    [M A] runs on the bank and returns the method's [BankResult] together
    with the state reached when the method returns, also on an early
    [return Err(..)] or [?]. *)

Definition M (A : Type) := Bank -> BankResult A * Bank.

Definition ret {A} (a : A) : M A := fun s => (Ok a, s).
Definition throw {A} (e : BankingError) : M A := fun s => (Err e, s).
Definition bind {A B} (c : M A) (k : A -> M B) : M B := fun s =>
  match c s with
  | (Ok a, s') => k a s'
  | (Err e, s') => (Err e, s')
  end.
Definition get : M Bank := fun s => (Ok s, s).
Definition modify (f : Bank -> Bank) : M unit := fun s => (Ok tt, f s).
(** The [?] operator on a result computed without touching the state. *)
Definition lift {A} (r : BankResult A) : M A := fun s => (r, s).

Notation "x <- c ;; k" := (bind c (fun x => k))
  (at level 100, c at next level, right associativity).
Notation "c ;; k" := (bind c (fun _ : unit => k))
  (at level 100, right associativity).

(** [iter().for_each(..)] over a collected vector. *)
Fixpoint for_each {A} (f : A -> M unit) (l : list A) : M unit :=
  match l with
  | [] => ret tt
  | x :: l' => f x ;; for_each f l'
  end.

(* ------------------------------------------------------------------ *)
(** ** bank.rs: the methods *)

Section BankImpl.

(** [Bank::hash]: [DefaultHasher] fed with the username, then the password. *)
Variable hash : string -> string -> HashResult.

(** [assert_role] *)
Definition assert_role (s : Bank) (user : HashResult) (r : Role) : BankResult UserId :=
  match users s !! user with
  | Some u => if role_eqb (role u) r then Ok (id u) else Err Unauthorized
  | None => Err NoUserFound
  end.

(** [deposit_event] *)
Definition deposit_event (e : Event) : M unit :=
  modify (with_events (fun evs => evs ++ [e])).

(** [generate_next_user_id]: [self.user_id_counter += 1u64] *)
Definition generate_next_user_id : M UserId :=
  modify (fun s => with_counter ((user_id_counter s + 1) mod 2 ^ 64)%N s) ;;
  s <- get ;;
  ret (user_id_counter s).

(** [has_username] *)
Definition has_username (s : Bank) (uname : string) : bool :=
  existsb (fun '(_, u) => bool_decide (username u = uname)) (map_to_list (users s)).

(** [create_user] *)
Definition create_user (uname password : string) (r : Role) : M unit :=
  s <- get ;;
  if has_username s uname then throw UserAlreadyExist else
  let hash_result := hash uname password in
  new_id <- generate_next_user_id ;;
  modify (with_users (insert hash_result (mkUser new_id uname r))) ;;
  ret tt.

(** [login] (takes [&self]) *)
Definition login (s : Bank) (uname password : string) : BankResult (HashResult * Role) :=
  let hash_result := hash uname password in
  match users s !! hash_result with
  | Some u => Ok (hash_result, role u)
  | None => Err FailedLogin
  end.

(** [change_password]: the old entry is removed before the [?]. *)
Definition change_password (user : HashResult) (new_password : string) : M unit :=
  s <- get ;;
  let removed := users s !! user in
  modify (with_users (delete user)) ;;
  user_data <- lift (match removed with Some u => Ok u | None => Err NoUserFound end) ;;
  let new_hash := hash (username user_data) new_password in
  modify (with_users (insert new_hash user_data)) ;;
  ret tt.

(** [report] (takes [&self]); returns the printed lines: every user, with the
    balance ([unwrap_or_default]) for customers. *)
Definition report (s : Bank) (user : HashResult) : BankResult (list (User * option Balance)) :=
  match users s !! user with
  | Some u =>
      if negb (role_eqb (role u) Customer) then
        Ok (map (fun '(_, v) =>
                   (v, if role_eqb (role v) Customer
                       then Some (default 0%float (balances s !! id v)) else None))
                (map_to_list (users s)))
      else Err Unauthorized
  | None => Err NoUserFound
  end.

(** The closure [|(_, user)| user.id == target && user.role == Role::Customer]
    searched for by [transfer] and [print_a_user_event]. *)
Definition customer_with_id (target : UserId) (entry : HashResult * User) : bool :=
  N.eqb (id entry.2) target && role_eqb (role entry.2) Customer.

(** [deposit] *)
Definition deposit (user : HashResult) (amount : Balance) : M unit :=
  if (amount <=? 0)%float then throw InvalidAmount else
  s <- get ;;
  id <- lift (assert_role s user Customer) ;;
  new_balance <- lift (match balances s !! id with
                       | Some balance => Ok (balance + amount)%float
                       | None => if (amount <? existential_deposit s)%float
                                 then Err AmountTooSmall else Ok amount
                       end) ;;
  modify (with_balances (insert id new_balance)) ;;
  deposit_event (Deposit id amount) ;;
  ret tt.

(** [withdraw] *)
Definition withdraw (user : HashResult) (amount : Balance) : M unit :=
  if (amount <=? 0)%float then throw InvalidAmount else
  s <- get ;;
  id <- lift (assert_role s user Customer) ;;
  new_balance <- lift (match balances s !! id with
                       | Some balance => if (amount <=? balance)%float
                                         then Ok (balance - amount)%float
                                         else Err InsufficientBalance
                       | None => Err InsufficientBalance
                       end) ;;
  deposit_event (Withdrawal id amount) ;;
  (if (existential_deposit s <=? new_balance)%float then
     modify (with_balances (insert id new_balance))
   else
     modify (with_balances (delete id)) ;;
     deposit_event (AccountReaped id new_balance)) ;;
  ret tt.

(** [transfer] *)
Definition transfer (user : HashResult) (amount : Balance) (target : UserId) : M unit :=
  s <- get ;;
  id <- lift (assert_role s user Customer) ;;
  if N.eqb id target then ret tt else
  if (amount <=? 0)%float then throw InvalidAmount else
  if (amount <? existential_deposit s)%float then throw AmountTooSmall else
  to_user_balance <- lift
    (match find (customer_with_id target) (map_to_list (users s)) with
     | Some _ => Ok (default 0%float (balances s !! target))
     | None => Err InvalidUserId
     end) ;;
  new_balance <- lift (match balances s !! id with
                       | Some balance => if (amount <=? balance)%float
                                         then Ok (balance - amount)%float
                                         else Err InsufficientBalance
                       | None => Err InsufficientBalance
                       end) ;;
  (if (existential_deposit s <=? new_balance)%float then
     modify (with_balances (insert id new_balance))
   else
     modify (with_balances (delete id)) ;;
     deposit_event (AccountReaped id new_balance)) ;;
  let to_user_balance := (to_user_balance + amount)%float in
  modify (with_balances (insert target to_user_balance)) ;;
  deposit_event (Transfer id target amount) ;;
  ret tt.

(** [check_balance] (takes [&self]) *)
Definition check_balance (s : Bank) (user : HashResult) : BankResult Balance :=
  match assert_role s user Customer with
  | Ok id => Ok (default 0%float (balances s !! id))
  | Err e => Err e
  end.

(** [set_interest_rate] *)
Definition set_interest_rate (user : HashResult) (rate : float) : M unit :=
  if (rate <? 0)%float then throw InvalidInterestRate else
  s <- get ;;
  match users s !! user with
  | Some u =>
      if role_eqb (role u) Manager then
        modify (with_interest_rate rate) ;;
        deposit_event (InterestRate (id u) rate) ;;
        ret tt
      else throw Unauthorized
  | None => throw NoUserFound
  end.

(** [set_tax_rate]: [!(0f64..=1f64).contains(&rate)] *)
Definition set_tax_rate (user : HashResult) (rate : float) : M unit :=
  if negb ((0 <=? rate)%float && (rate <=? 1)%float) then throw InvalidTaxRate else
  s <- get ;;
  match users s !! user with
  | Some u =>
      if role_eqb (role u) Auditor then
        modify (with_tax_rate rate) ;;
        deposit_event (TaxRate (id u) rate) ;;
        ret tt
      else throw Unauthorized
  | None => throw NoUserFound
  end.

(** The role check at the head of [pay_interest] and [take_tax]. *)
Definition require_role (s : Bank) (user : HashResult) (r : Role) : BankResult unit :=
  match users s !! user with
  | Some u => if role_eqb (role u) r then Ok tt else Err Unauthorized
  | None => Err NoUserFound
  end.

(** The saturating interest step of [pay_interest]. *)
Definition interest_step (rate balance : Balance) : Balance :=
  if (Balance_MAX / (1 + rate) <? balance)%float then Balance_MAX
  else (balance * (1 + rate))%float.

(** The per-entry bodies of [pay_interest] and [take_tax]. *)
Definition interest_body : UserId * Balance -> M unit :=
  fun '(id, interest) => deposit_event (Interest id interest).

Definition tax_body (ed : Balance) : UserId * Balance * Balance -> M unit :=
  fun '(id, new_balance, tax) =>
    deposit_event (Tax id tax) ;;
    if (new_balance <? ed)%float then
      modify (with_balances (delete id)) ;;
      deposit_event (AccountReaped id new_balance)
    else ret tt.

(** [pay_interest]: [iter_mut().map(..).collect()] updates every entry and
    collects [(id, interest)]; then one [Interest] event per entry. *)
Definition pay_interest (user : HashResult) : M unit :=
  s <- get ;;
  lift (require_role s user Manager) ;;
  let rate := interest_rate s in
  let collected := map (fun '(id, balance) =>
                          (id, (interest_step rate balance - balance)%float))
                       (map_to_list (balances s)) in
  modify (with_balances (fmap (interest_step rate))) ;;
  for_each interest_body collected ;;
  ret tt.

(** [take_tax]: [iter_mut().map(..).collect()] multiplies every entry by
    [1 - rate] and collects [(id, new_balance, tax)]; then, per entry, a [Tax]
    event and, below ED, removal and an [AccountReaped] event. *)
Definition take_tax (user : HashResult) : M unit :=
  s <- get ;;
  lift (require_role s user Auditor) ;;
  let rate := tax_rate s in
  let ed := existential_deposit s in
  let collected := map (fun '(id, balance) =>
                          (id, (balance * (1 - rate))%float, (balance * rate)%float))
                       (map_to_list (balances s)) in
  modify (with_balances (fmap (fun balance => (balance * (1 - rate))%float))) ;;
  for_each (tax_body ed) collected ;;
  ret tt.

(** The filter of [iter_event]. *)
Definition event_concerns (target_id : UserId) (e : Event) : bool :=
  match e with
  | Deposit i _ | Withdrawal i _ | AccountReaped i _ | Interest i _ | Tax i _ =>
      N.eqb i target_id
  | Transfer i to_id _ => N.eqb i target_id || N.eqb to_id target_id
  | InterestRate _ _ | TaxRate _ _ => false
  end.

(** [iter_event]: the events it prints. *)
Definition iter_event (s : Bank) (target_id : UserId) : list Event :=
  filter (fun e => event_concerns target_id e = true) (events s).

(** [print_event] (takes [&self]) *)
Definition print_event (s : Bank) (user : HashResult) : BankResult (list Event) :=
  match assert_role s user Customer with
  | Ok id => Ok (iter_event s id)
  | Err e => Err e
  end.

(** [print_a_user_event] (takes [&self]) *)
Definition print_a_user_event (s : Bank) (user : HashResult) (r : Role) (user_id : UserId)
  : BankResult (list Event) :=
  if role_eqb r Customer then Err Unauthorized else
  match assert_role s user r with
  | Err e => Err e
  | Ok _ =>
      match find (customer_with_id user_id) (map_to_list (users s)) with
      | Some _ => Ok (iter_event s user_id)
      | None => Err InvalidUserId
      end
  end.

(** [print_all_events] (takes [&self]) *)
Definition print_all_events (s : Bank) (user : HashResult) (r : Role) : BankResult (list Event) :=
  if role_eqb r Customer then Err Unauthorized else
  match assert_role s user r with
  | Err e => Err e
  | Ok _ => Ok (events s)
  end.

(** The public operations of [Bank], as a caller (the console shell of
    [main.rs] or the tests) issues them. *)
Inductive Op :=
  | OpCreateUser (uname password : string) (r : Role)
  | OpLogin (uname password : string)
  | OpChangePassword (user : HashResult) (new_password : string)
  | OpReport (user : HashResult)
  | OpDeposit (user : HashResult) (amount : Balance)
  | OpWithdraw (user : HashResult) (amount : Balance)
  | OpTransfer (user : HashResult) (amount : Balance) (target : UserId)
  | OpCheckBalance (user : HashResult)
  | OpSetInterestRate (user : HashResult) (rate : float)
  | OpSetTaxRate (user : HashResult) (rate : float)
  | OpPayInterest (user : HashResult)
  | OpTakeTax (user : HashResult)
  | OpPrintEvent (user : HashResult)
  | OpPrintAUserEvent (user : HashResult) (r : Role) (user_id : UserId)
  | OpPrintAllEvents (user : HashResult) (r : Role).

(** The outcome of a [&self] method: its result, the state untouched. *)
Definition observe {A} (r : BankResult A) : M unit := fun s =>
  match r with
  | Ok _ => (Ok tt, s)
  | Err e => (Err e, s)
  end.

Definition exec (o : Op) : M unit :=
  match o with
  | OpCreateUser uname password r => create_user uname password r
  | OpLogin uname password => s <- get ;; observe (login s uname password)
  | OpChangePassword user np => change_password user np
  | OpReport user => s <- get ;; observe (report s user)
  | OpDeposit user amount => deposit user amount
  | OpWithdraw user amount => withdraw user amount
  | OpTransfer user amount target => transfer user amount target
  | OpCheckBalance user => s <- get ;; observe (check_balance s user)
  | OpSetInterestRate user rate => set_interest_rate user rate
  | OpSetTaxRate user rate => set_tax_rate user rate
  | OpPayInterest user => pay_interest user
  | OpTakeTax user => take_tax user
  | OpPrintEvent user => s <- get ;; observe (print_event s user)
  | OpPrintAUserEvent user r uid => s <- get ;; observe (print_a_user_event s user r uid)
  | OpPrintAllEvents user r => s <- get ;; observe (print_all_events s user r)
  end.

(** Running a sequence of operations; a failed operation leaves whatever
    state it returned with, and the next one runs on it. *)
Fixpoint run (s : Bank) (ops : list Op) : Bank :=
  match ops with
  | [] => s
  | o :: ops' => run (exec o s).2 ops'
  end.

End BankImpl.

(** A concrete injective stand-in for [DefaultHasher], used to run the model
    on concrete inputs. *)
Definition model_hash (uname password : string) : HashResult :=
  Npos (encode (uname, password)).

(** ** [DefaultHasher], as the Rust standard library implements it

    [DefaultHasher::new()] is SipHash-1-3 with both keys 0 (one compression
    round per 8-byte block, three finalisation rounds).  [String::hash]
    writes the bytes of the string followed by the byte 0xFF, so [Bank::hash]
    hashes [username ++ [0xFF] ++ password ++ [0xFF]].  Arithmetic is on
    64-bit words, written as [N] masked to 64 bits. *)

Definition u64_mask : N := 0xffffffffffffffff%N.

Definition wadd (a b : N) : N := N.land (a + b) u64_mask.

Definition rotl (x b : N) : N :=
  N.land (N.lor (N.shiftl x b) (N.shiftr x (64 - b))) u64_mask.

Record SipState := mkSipState { sv0 : N; sv1 : N; sv2 : N; sv3 : N }.

Definition sip_round (v : SipState) : SipState :=
  let '(mkSipState v0 v1 v2 v3) := v in
  let v0 := wadd v0 v1 in let v1 := rotl v1 13 in let v1 := N.lxor v1 v0 in
  let v0 := rotl v0 32 in
  let v2 := wadd v2 v3 in let v3 := rotl v3 16 in let v3 := N.lxor v3 v2 in
  let v0 := wadd v0 v3 in let v3 := rotl v3 21 in let v3 := N.lxor v3 v0 in
  let v2 := wadd v2 v1 in let v1 := rotl v1 17 in let v1 := N.lxor v1 v2 in
  let v2 := rotl v2 32 in
  mkSipState v0 v1 v2 v3.

Fixpoint sip_rounds (n : nat) (v : SipState) : SipState :=
  match n with O => v | S n => sip_rounds n (sip_round v) end.

(** Absorb one 64-bit word [m] with [c] rounds. *)
Definition sip_compress (c : nat) (m : N) (v : SipState) : SipState :=
  let '(mkSipState v0 v1 v2 v3) :=
    sip_rounds c (mkSipState (sv0 v) (sv1 v) (sv2 v) (N.lxor (sv3 v) m)) in
  mkSipState (N.lxor v0 m) v1 v2 v3.

(** The streaming hasher: the state words, the pending little-endian tail
    of fewer than 8 bytes, its byte count, and the total length. *)
Record SipHasher := mkSipHasher {
  sip_state : SipState; sip_tail : N; sip_ntail : N; sip_length : N
}.

Definition sip_new (k0 k1 : N) : SipHasher :=
  mkSipHasher (mkSipState (N.lxor k0 0x736f6d6570736575) (N.lxor k1 0x646f72616e646f6d)
                 (N.lxor k0 0x6c7967656e657261) (N.lxor k1 0x7465646279746573))
    0 0 0.

Definition sip_write_byte (c : nat) (h : SipHasher) (b : N) : SipHasher :=
  let t := N.lor (sip_tail h) (N.shiftl b (8 * sip_ntail h)) in
  if (sip_ntail h =? 7)%N
  then mkSipHasher (sip_compress c t (sip_state h)) 0 0 (sip_length h + 1)
  else mkSipHasher (sip_state h) t (sip_ntail h + 1) (sip_length h + 1).

Definition sip_finish (c d : nat) (h : SipHasher) : N :=
  let b := N.lor (N.shiftl (N.land (sip_length h) 0xff) 56) (sip_tail h) in
  let '(mkSipState v0 v1 v2 v3) := sip_compress c b (sip_state h) in
  let '(mkSipState v0 v1 v2 v3) :=
    sip_rounds d (mkSipState v0 v1 (N.lxor v2 0xff) v3) in
  N.lxor (N.lxor v0 v1) (N.lxor v2 v3).

(** SipHash-c-d of a byte string under the key (k0, k1). *)
Definition siphash (c d : nat) (k0 k1 : N) (bs : list N) : N :=
  sip_finish c d (fold_left (sip_write_byte c) bs (sip_new k0 k1)).

Definition str_bytes (s : string) : list N :=
  map N_of_ascii (list_ascii_of_string s).

(** [Bank::hash] with [DefaultHasher::new()]. *)
Definition default_hash (uname password : string) : HashResult :=
  siphash 1 3 0 0 (str_bytes uname ++ [0xff%N] ++ str_bytes password ++ [0xff%N]).

(** ** The Directory and the Balance Store, as invariants *)

(** [uid] is the id of a Customer present in the Directory [us]. *)
Definition customer_id (us : gmap HashResult User) (uid : UserId) : Prop :=
  exists k u, us !! k = Some u /\ id u = uid /\ role u = Customer.

(** Every key of the Balance Store [bs] is the id of a Customer of [us]. *)
Definition balances_of_customers (us : gmap HashResult User)
    (bs : gmap UserId Balance) : Prop :=
  forall uid, is_Some (bs !! uid) -> customer_id us uid.


(** The Directory [us'] still holds every record of [us], possibly re-keyed. *)
Definition keeps_records (us us' : gmap HashResult User) : Prop :=
  forall k u, us !! k = Some u -> exists k', us' !! k' = Some u.

(** The Directory is unchanged and no Balance Store key is added. *)
Definition shrinks (s s' : Bank) : Prop :=
  users s' = users s /\
  (forall i, is_Some (balances s' !! i) -> is_Some (balances s !! i)).

(** [k] is not a key of the Directory [us]. *)
Definition key_free (us : gmap HashResult User) (k : HashResult) : bool :=
  match us !! k with None => true | Some _ => false end.

(** The step [o] stores no record over the Directory entry of another one:
    a [create_user] that goes ahead ([has_username] false) inserts at a free
    key, and a [change_password] re-keys its record onto its own key or a
    free one.  [HashMap::insert] would otherwise overwrite that entry. *)
Definition fresh_step (hash : string -> string -> HashResult) (s : Bank) (o : Op) : bool :=
  match o with
  | OpCreateUser uname password _ =>
      has_username s uname || key_free (users s) (hash uname password)
  | OpChangePassword user np =>
      match users s !! user with
      | Some ud => key_free (delete user (users s)) (hash (username ud) np)
      | None => true
      end
  | _ => true
  end.

(** Every step of the run [ops] from [s] is [fresh_step]. *)
Fixpoint fresh_run (hash : string -> string -> HashResult) (s : Bank) (ops : list Op) : bool :=
  match ops with
  | [] => true
  | o :: ops' => fresh_step hash s o && fresh_run hash (exec hash o s).2 ops'
  end.

(* ------------------------------------------------------------------ *)
(** ** primitives.rs: the messages of [impl Display for BankingError] *)

Definition error_message (e : BankingError) : string :=
  match e with
  | Unauthorized => "Current user is not authorized to do this operation."
  | InsufficientBalance => "User does not have enough balance."
  | InvalidAmount => "The amount given is not valid."
  | FailedLogin => "Login failed! The username or password is not correct."
  | NoUserFound => "Error, User does not exist."
  | AmountTooSmall => "Error, the amount given is too small."
  | InvalidUserId => "Error, user ID is not exist."
  | InvalidTaxRate => "Error, tax rate must be between 0 and 1."
  | InvalidInterestRate => "Error, interest rate could not be nagitive."
  | UserAlreadyExist => "Error, this user is already exist."
  end.

(* ------------------------------------------------------------------ *)
(** ** main.rs: reading credentials at the console *)

(** [char::is_whitespace] on the ASCII range: U+0009 to U+000D and U+0020. *)
Definition is_ascii_whitespace (c : ascii) : bool :=
  match nat_of_ascii c with
  | 9 | 10 | 11 | 12 | 13 | 32 => true
  | _ => false
  end.

Fixpoint trim_start_chars (l : list ascii) : list ascii :=
  match l with
  | [] => []
  | c :: l' => if is_ascii_whitespace c then trim_start_chars l' else l
  end.

(** [str::trim]: leading and trailing whitespace removed (ASCII whitespace). *)
Definition trim (s : string) : string :=
  string_of_list_ascii
    (rev (trim_start_chars (rev (trim_start_chars (list_ascii_of_string s))))).

(** [io::stdin().read_line(&mut buf)] on a typed line: the text and its
    line terminator. *)
Definition read_line (typed : string) : string :=
  String.append typed (String "010"%char EmptyString).

(** [login_page]: both buffers are trimmed before [Bank::login]. *)
Definition login_page (hash : string -> string -> HashResult) (s : Bank)
    (username_buf password_buf : string) : BankResult (HashResult * Role) :=
  login hash s (trim username_buf) (trim password_buf).

(** Option "4" of [manager_page] and [auditor_page]: the buffer read by
    [read_line] goes to [change_password] as it is. *)
Definition staff_change_password (hash : string -> string -> HashResult)
    (user : HashResult) (typed : string) : M unit :=
  change_password hash user (read_line typed).

(* ------------------------------------------------------------------ *)
(** ** Bookkeeping over runs *)

(** The number of [create_user] calls in a sequence of operations. *)
Fixpoint count_creates (ops : list Op) : N :=
  match ops with
  | [] => 0
  | OpCreateUser _ _ _ :: ops' => 1 + count_creates ops'
  | _ :: ops' => count_creates ops'
  end.

(** Ids handed out so far are at most the counter, and no two Directory
    keys hold the same id. *)
Definition ids_wf (s : Bank) : Prop :=
  (forall k u, users s !! k = Some u -> (id u <= user_id_counter s)%N) /\
  (forall k1 k2 u1 u2, users s !! k1 = Some u1 -> users s !! k2 = Some u2 ->
     id u1 = id u2 -> k1 = k2).

(** The configuration a [Bank] starts with and the setters' range checks. *)
Definition config_ok (s : Bank) : Prop :=
  existential_deposit s = ED /\
  ((0 <=? tax_rate s) && (tax_rate s <=? 1))%float = true /\
  (interest_rate s <? 0)%float = false.

(** Frames: an operation leaving the Directory and the id counter alone,
    and one leaving the rates and the existential deposit alone. *)
Definition dir_same (s s' : Bank) : Prop :=
  users s' = users s /\ user_id_counter s' = user_id_counter s.

Definition config_same (s s' : Bank) : Prop :=
  interest_rate s' = interest_rate s /\ tax_rate s' = tax_rate s /\
  existential_deposit s' = existential_deposit s.

(* ================================================================== *)
(** * Proofs *)

(** ** Monad plumbing *)

Lemma with_users_id (s : Bank) : with_users (fun m => m) s = s.
Proof. by destruct s. Qed.

(** A computation that never fails. *)
Definition total {A} (c : M A) : Prop := forall s, exists a s', c s = (Ok a, s').

(** A computation whose only effect on the event log is appending. *)
Definition appends {A} (c : M A) : Prop :=
  forall s, exists l, events (c s).2 = events s ++ l.

Lemma for_each_total {A} (f : A -> M unit) (l : list A) :
  (forall x, total (f x)) -> total (for_each f l).
Proof.
  intros Hf. induction l as [|x l IH]; intros s; simpl.
  - by exists tt, s.
  - unfold bind. destruct (Hf x s) as (a & s1 & ->).
    destruct (IH s1) as (b & s2 & ->). by exists b, s2.
Qed.

Lemma for_each_appends {A} (f : A -> M unit) (l : list A) :
  (forall x, total (f x)) -> (forall x, appends (f x)) -> appends (for_each f l).
Proof.
  intros Ht Ha. induction l as [|x l IH]; intros s; simpl.
  - exists []. by rewrite app_nil_r.
  - unfold bind. destruct (Ht x s) as (a & s1 & Hs1).
    destruct (Ha x s) as (l1 & Hl1). rewrite Hs1 in Hl1 |- *. simpl in Hl1.
    destruct (IH s1) as (l2 & Hl2). exists (l1 ++ l2).
    by rewrite Hl2, Hl1, app_assoc.
Qed.

Lemma deposit_event_total e : total (deposit_event e).
Proof. intros s. by exists tt, (with_events (fun evs => evs ++ [e]) s). Qed.

Lemma deposit_event_appends e : appends (deposit_event e).
Proof. intros s. by exists [e]. Qed.

Lemma delete_balances_total i : total (modify (with_balances (delete i))).
Proof. intros s. by exists tt, (with_balances (delete i) s). Qed.

Lemma delete_balances_appends i : appends (modify (with_balances (delete i))).
Proof. intros s. exists []. by rewrite app_nil_r. Qed.

Create HintDb bank.
#[local] Hint Resolve deposit_event_total deposit_event_appends
  delete_balances_total delete_balances_appends : bank.

Lemma interest_body_total x : total (interest_body x).
Proof. destruct x. apply deposit_event_total. Qed.

Lemma interest_body_appends x : appends (interest_body x).
Proof. destruct x. apply deposit_event_appends. Qed.

Lemma tax_body_total ed x : total (tax_body ed x).
Proof.
  destruct x as [[i nb] t]. intros s. unfold tax_body, bind, ret.
  simpl. destruct (nb <? ed)%float; eauto.
Qed.

Lemma tax_body_appends ed x : appends (tax_body ed x).
Proof.
  destruct x as [[i nb] t]. intros s. unfold tax_body, bind, ret.
  simpl. destruct (nb <? ed)%float; simpl.
  - exists [Tax i t; AccountReaped i nb]. by rewrite <- app_assoc.
  - by exists [Tax i t].
Qed.

Lemma interest_loop_total l : total (for_each interest_body l).
Proof. apply for_each_total, interest_body_total. Qed.

Lemma tax_loop_total ed l : total (for_each (tax_body ed) l).
Proof. apply for_each_total, tax_body_total. Qed.

Ltac unfold_m := unfold deposit_event, bind, get, ret, throw, lift, modify, observe in *.

(** Rewrite the loops of [pay_interest] and [take_tax] into their results. *)
Ltac run_loops :=
  repeat match goal with
  | |- context [for_each interest_body ?l ?s] =>
      let a := fresh "a" in let s' := fresh "s" in let E := fresh "E" in
      destruct (interest_loop_total l s) as (a & s' & E); rewrite E
  | |- context [for_each (tax_body ?ed) ?l ?s] =>
      let a := fresh "a" in let s' := fresh "s" in let E := fresh "E" in
      destruct (tax_loop_total ed l s) as (a & s' & E); rewrite E
  end.

Ltac crush_m := repeat (case_match; simpl); intros; simplify_eq/=; try done.

Section Ops.

Variable hash : string -> string -> HashResult.

(** ** No state change on [Err] *)

Lemma create_user_err uname password r s e s' :
  create_user hash uname password r s = (Err e, s') -> s' = s.
Proof. unfold create_user, generate_next_user_id. unfold_m. simpl. crush_m. Qed.

Lemma change_password_err user np s e s' :
  change_password hash user np s = (Err e, s') -> s' = s.
Proof.
  unfold change_password. unfold_m. simpl.
  destruct (users s !! user) eqn:Hu; simpl; [done|].
  intros [= _ <-]. destruct s; unfold with_users; cbn in *. by rewrite delete_id.
Qed.

Lemma deposit_err user amount s e s' :
  deposit user amount s = (Err e, s') -> s' = s.
Proof. unfold deposit. unfold_m. simpl. crush_m. Qed.

Lemma withdraw_err user amount s e s' :
  withdraw user amount s = (Err e, s') -> s' = s.
Proof. unfold withdraw. unfold_m. simpl. crush_m. Qed.

Lemma transfer_err user amount target s e s' :
  transfer user amount target s = (Err e, s') -> s' = s.
Proof. unfold transfer. unfold_m. simpl. crush_m. Qed.

Lemma set_interest_rate_err user rate s e s' :
  set_interest_rate user rate s = (Err e, s') -> s' = s.
Proof. unfold set_interest_rate. unfold_m. simpl. crush_m. Qed.

Lemma set_tax_rate_err user rate s e s' :
  set_tax_rate user rate s = (Err e, s') -> s' = s.
Proof. unfold set_tax_rate. unfold_m. simpl. crush_m. Qed.

Lemma pay_interest_err user s e s' :
  pay_interest user s = (Err e, s') -> s' = s.
Proof.
  unfold pay_interest. unfold_m. simpl.
  destruct (require_role s user Manager); simpl; [|by intros [= _ ->]].
  run_loops. simpl. intros; simplify_eq.
Qed.

Lemma take_tax_err user s e s' :
  take_tax user s = (Err e, s') -> s' = s.
Proof.
  unfold take_tax. unfold_m. simpl.
  destruct (require_role s user Auditor); simpl; [|by intros [= _ ->]].
  run_loops. simpl. intros; simplify_eq.
Qed.

(** ** Event log only grows *)

Ltac appends_tac :=
  cbn [events with_events with_balances with_users with_counter
       with_interest_rate with_tax_rate fst snd] in *;
  first [ exists []; by rewrite app_nil_r
        | rewrite <- ?app_assoc; eexists; reflexivity ].

Lemma create_user_appends uname password r : appends (create_user hash uname password r).
Proof.
  intros s. unfold create_user, generate_next_user_id. unfold_m. simpl.
  repeat (case_match; simplify_eq/=). all: appends_tac.
Qed.

Lemma change_password_appends user np : appends (change_password hash user np).
Proof.
  intros s. unfold change_password. unfold_m. simpl.
  repeat (case_match; simplify_eq/=). all: appends_tac.
Qed.

Lemma deposit_appends user amount : appends (deposit user amount).
Proof. intros s. unfold deposit. unfold_m. simpl. repeat (case_match; simplify_eq/=). all: appends_tac. Qed.

Lemma withdraw_appends user amount : appends (withdraw user amount).
Proof. intros s. unfold withdraw. unfold_m. simpl. repeat (case_match; simplify_eq/=). all: appends_tac. Qed.

Lemma transfer_appends user amount target : appends (transfer user amount target).
Proof. intros s. unfold transfer. unfold_m. simpl. repeat (case_match; simplify_eq/=). all: appends_tac. Qed.

Lemma set_interest_rate_appends user rate : appends (set_interest_rate user rate).
Proof.
  intros s. unfold set_interest_rate. unfold_m. simpl.
  repeat (case_match; simplify_eq/=). all: appends_tac.
Qed.

Lemma set_tax_rate_appends user rate : appends (set_tax_rate user rate).
Proof.
  intros s. unfold set_tax_rate. unfold_m. simpl.
  repeat (case_match; simplify_eq/=). all: appends_tac.
Qed.

Lemma pay_interest_appends user : appends (pay_interest user).
Proof.
  intros s. unfold pay_interest. unfold_m. simpl.
  destruct (require_role s user Manager); simpl; [|appends_tac].
  match goal with |- context [for_each interest_body ?l ?s1] =>
    destruct (for_each_appends interest_body l interest_body_total
                interest_body_appends s1) as [l1 Hl1];
    destruct (interest_loop_total l s1) as (? & s2 & E) end.
  rewrite E in Hl1 |- *. simpl in *. exists l1. by rewrite Hl1.
Qed.

Lemma take_tax_appends user : appends (take_tax user).
Proof.
  intros s. unfold take_tax. unfold_m. simpl.
  destruct (require_role s user Auditor); simpl; [|appends_tac].
  match goal with |- context [for_each (tax_body ?ed) ?l ?s1] =>
    destruct (for_each_appends (tax_body ed) l (tax_body_total ed)
                (tax_body_appends ed) s1) as [l1 Hl1];
    destruct (tax_loop_total ed l s1) as (? & s2 & E) end.
  rewrite E in Hl1 |- *. simpl in *. exists l1. by rewrite Hl1.
Qed.

End Ops.

Lemma observe_state {A} (r : BankResult A) s : (observe r s).2 = s.
Proof. by destruct r. Qed.

Section Claims.

Variable hash : string -> string -> HashResult.

(** An operation returning [Err] returns with the state it started from. *)
Lemma exec_err (o : Op) (s : Bank) (e : BankingError) :
  (exec hash o s).1 = Err e -> (exec hash o s).2 = s.
Proof.
  destruct (exec hash o s) as [r s'] eqn:E. simpl. intros ->.
  destruct o; simpl in E; unfold bind, get in E;
    try (match type of E with observe ?r ?s0 = _ =>
           pose proof (observe_state r s0) as Ho end;
         rewrite E in Ho; exact Ho).
  - eapply create_user_err; exact E.
  - eapply change_password_err; exact E.
  - eapply deposit_err; exact E.
  - eapply withdraw_err; exact E.
  - eapply transfer_err; exact E.
  - eapply set_interest_rate_err; exact E.
  - eapply set_tax_rate_err; exact E.
  - eapply pay_interest_err; exact E.
  - eapply take_tax_err; exact E.
Qed.

(** Claim C2 (atomicity on error): for every operation of [Bank] and every
    starting state, if the operation returns [Err] then the whole state
    (users, balances, events, rates, existential deposit, id counter) is the
    starting state. *)
Theorem exec_err_state_unchanged (o : Op) (s : Bank) (e : BankingError) :
  (exec hash o s).1 = Err e -> (exec hash o s).2 = s.
Proof. apply exec_err. Qed.

Lemma exec_appends (o : Op) : appends (exec hash o).
Proof.
  destruct o; simpl;
    try (intros s; unfold bind, get; rewrite observe_state; exists [];
         by rewrite app_nil_r).
  - apply create_user_appends.
  - apply change_password_appends.
  - apply deposit_appends.
  - apply withdraw_appends.
  - apply transfer_appends.
  - apply set_interest_rate_appends.
  - apply set_tax_rate_appends.
  - apply pay_interest_appends.
  - apply take_tax_appends.
Qed.

(** Claim C3 (the event log is append-only): for every operation and every
    starting state, the event list before is a prefix of the event list
    after, and an operation returning [Err] leaves the event list exactly
    as it was. *)
Theorem exec_events_append_only (o : Op) (s : Bank) :
  (exists l, events (exec hash o s).2 = events s ++ l) /\
  (forall e, (exec hash o s).1 = Err e -> events (exec hash o s).2 = events s).
Proof.
  split.
  - apply exec_appends.
  - intros e He. by rewrite (exec_err o s e He).
Qed.

(** Claim C10 (change_password frame): a successful [change_password]
    stores the very same user record (same id, username and role) under the
    credential of (username, new password), and leaves the balances, the
    event log, both rates, the existential deposit and the id counter as they
    were; in particular no event is appended. *)
Theorem change_password_frame (user : HashResult) (np : string) (s s' : Bank) :
  change_password hash user np s = (Ok tt, s') ->
  exists u, users s !! user = Some u /\
    users s' !! hash (username u) np = Some u /\
    balances s' = balances s /\ events s' = events s /\
    interest_rate s' = interest_rate s /\ tax_rate s' = tax_rate s /\
    existential_deposit s' = existential_deposit s /\
    user_id_counter s' = user_id_counter s.
Proof.
  unfold change_password. unfold_m. simpl.
  destruct (users s !! user) as [u|] eqn:Hu; simpl; [|discriminate].
  intros [= <-]. exists u. split; [done|].
  simpl. rewrite lookup_insert_eq. by repeat split.
Qed.

(** Claim C8, as the code has it: after a successful [change_password] the
    user record [u] found under the old credential is stored unchanged under
    the credential of (username, new password); the old credential has no
    Directory entry any more, so every role check made with it fails
    [NoUserFound], unless it equals the new credential (as when the new
    password is the old one), in which case it stays valid. *)
Theorem change_password_rekeys (user : HashResult) (np : string) (s s' : Bank) :
  change_password hash user np s = (Ok tt, s') ->
  exists u, users s !! user = Some u /\
    users s' !! hash (username u) np = Some u /\
    (user <> hash (username u) np ->
       users s' !! user = None /\ forall r, assert_role s' user r = Err NoUserFound).
Proof.
  unfold change_password. unfold_m. simpl.
  destruct (users s !! user) as [u|] eqn:Hu; simpl; [|discriminate].
  intros [= <-]. exists u. split; [done|]. simpl.
  rewrite lookup_insert_eq. split; [done|].
  intros Hne. unfold assert_role. simpl.
  rewrite lookup_insert_ne by congruence. rewrite lookup_delete_eq. done.
Qed.

(** Claim C5, as the code has it: the role check comes first.  For a
    credential resolving to a user [u], a transfer of any amount (zero,
    negative, NaN included) to [u]'s own id leaves the whole state unchanged
    (no balance entry and no event changes) and returns [Ok] when [u] is a
    Customer, [Unauthorized] otherwise; a credential with no Directory entry
    gets [NoUserFound], with the state unchanged, whatever the target. *)
Theorem transfer_to_self (user : HashResult) (amount : Balance) (s : Bank) :
  match users s !! user with
  | Some u =>
      transfer user amount (id u) s
        = (if role_eqb (role u) Customer then Ok tt else Err Unauthorized, s)
  | None => forall target, transfer user amount target s = (Err NoUserFound, s)
  end.
Proof.
  unfold transfer, assert_role. unfold_m. simpl.
  destruct (users s !! user) as [u|]; simpl; [|done].
  destruct (role_eqb (role u) Customer); simpl; [|done].
  by rewrite N.eqb_refl.
Qed.


(** Claim C4, as the code has it: for a caller resolving to a Customer [u]
    and an amount > 0, [withdraw] fails [InsufficientBalance], with the state
    unchanged, when there is no entry or the entry [b] is not >= amount
    (entry < amount, or a NaN entry); otherwise, with [nb = b - amount], it
    appends [Withdrawal] and then either, when [nb >= ED], sets the entry to
    [nb], or (nb < ED, or nb NaN) removes the entry and appends
    [AccountReaped] with dust [nb] after the [Withdrawal]. *)
Theorem withdraw_postcondition (user : HashResult) (amount : Balance) (s : Bank) (u : User) :
  users s !! user = Some u -> role u = Customer -> (0 <? amount)%float = true ->
  match balances s !! id u with
  | Some b =>
      if (amount <=? b)%float then
        let nb := (b - amount)%float in
        let logged := with_events (fun evs => evs ++ [Withdrawal (id u) amount]) s in
        withdraw user amount s =
          (Ok tt, if (existential_deposit s <=? nb)%float
                  then with_balances (insert (id u) nb) logged
                  else with_events (fun evs => evs ++ [AccountReaped (id u) nb])
                         (with_balances (delete (id u)) logged))
      else withdraw user amount s = (Err InsufficientBalance, s)
  | None => withdraw user amount s = (Err InsufficientBalance, s)
  end.
Proof.
  intros Hu Hr Hpos.
  assert (Hle : (amount <=? 0)%float = false).
  { destruct (amount <=? 0)%float eqn:E; [|done].
    (* 0 < amount and amount <= 0 cannot both hold *)
    rewrite ltb_spec in Hpos; rewrite leb_spec in E.
    revert Hpos E. generalize (Prim2SF amount). intros f.
    destruct f as [[]|[]| |[] m e]; vm_compute; congruence. }
  unfold withdraw, assert_role. unfold_m. rewrite Hle. simpl.
  rewrite Hu, Hr. simpl.
  destruct (balances s !! id u) as [b|]; simpl; [|done].
  destruct (amount <=? b)%float; simpl; [|done].
  by destruct (existential_deposit s <=? b - amount)%float.
Qed.

(** Claim C7, as the code has it: after a successful transfer of [amount]
    from Customer [u] (entry [a]) to another id [target] (entry [b], or 0
    when absent), the target's entry is the f64 sum [b + amount]; the
    sender's entry is the f64 difference [a - amount] when that is >= ED, and
    otherwise it is removed and [a - amount] is logged as AccountReaped dust.
    The balances' sum is therefore conserved up to the rounding of these two
    f64 operations, and no more. *)
Theorem transfer_balances (user : HashResult) (amount : Balance) (target : UserId)
    (s s' : Bank) (u : User) :
  users s !! user = Some u -> id u <> target ->
  transfer user amount target s = (Ok tt, s') ->
  exists a, balances s !! id u = Some a /\
    balances s' !! target
      = Some (default 0%float (balances s !! target) + amount)%float /\
    (if (existential_deposit s <=? a - amount)%float
     then balances s' !! id u = Some (a - amount)%float
     else balances s' !! id u = None /\
          AccountReaped (id u) (a - amount)%float ∈ events s').
Proof.
  intros Hu Hne. unfold transfer, assert_role. unfold_m. simpl.
  rewrite Hu. simpl.
  destruct (role_eqb (role u) Customer); simpl; [|discriminate].
  pose proof Hne as Hne'. apply N.eqb_neq in Hne'. rewrite Hne'. simpl.
  repeat (case_match; simplify_eq/=; try discriminate).
  all: intros [= <-]; eexists; split; [done|]; simpl;
    rewrite lookup_insert_eq; split; [done|];
    case_match; cbn [balances events with_balances with_events]; try congruence.
  - by rewrite lookup_insert_ne, lookup_insert_eq by congruence.
  - rewrite lookup_insert_ne, lookup_delete_eq by congruence.
    split; [done|]. set_solver.
Qed.

End Claims.

(** ** Balances belong to Customers *)

Lemma customer_id_keep us us' uid :
  keeps_records us us' -> customer_id us uid -> customer_id us' uid.
Proof.
  intros Hk (k & u & Hl & Hi & Hr). destruct (Hk _ _ Hl) as [k' Hl'].
  by exists k', u.
Qed.

Lemma boc_keep us us' bs :
  keeps_records us us' -> balances_of_customers us bs ->
  balances_of_customers us' bs.
Proof. intros Hk H uid Hs. eapply customer_id_keep; eauto. Qed.

Lemma boc_insert us bs i b :
  balances_of_customers us bs -> customer_id us i ->
  balances_of_customers us (<[i:=b]> bs).
Proof.
  intros H Hc j Hj. destruct (decide (i = j)) as [<-|Hne]; [done|].
  rewrite lookup_insert_ne in Hj by done. auto.
Qed.

Lemma boc_delete us bs i :
  balances_of_customers us bs -> balances_of_customers us (delete i bs).
Proof.
  intros H j Hj. destruct (decide (i = j)) as [<-|Hne].
  - rewrite lookup_delete_eq in Hj. by destruct Hj.
  - rewrite lookup_delete_ne in Hj by done. auto.
Qed.

Lemma boc_fmap us bs (f : Balance -> Balance) :
  balances_of_customers us bs -> balances_of_customers us (f <$> bs).
Proof.
  intros H j Hj. apply H. rewrite lookup_fmap in Hj.
  by destruct (bs !! j).
Qed.

Lemma shrinks_refl s : shrinks s s.
Proof. by split. Qed.

Lemma shrinks_trans s1 s2 s3 : shrinks s1 s2 -> shrinks s2 s3 -> shrinks s1 s3.
Proof.
  intros [Hu1 Hb1] [Hu2 Hb2]. split; [congruence|]. auto.
Qed.

Lemma for_each_shrinks {A} (f : A -> M unit) (l : list A) :
  (forall x s, shrinks s (f x s).2) -> forall s, shrinks s (for_each f l s).2.
Proof.
  intros Hf. induction l as [|x l IH]; intros s; simpl; [apply shrinks_refl|].
  unfold bind. specialize (Hf x s).
  destruct (f x s) as [[a|e] s1]; simpl in *; [|done].
  eapply shrinks_trans; [exact Hf|apply IH].
Qed.

Lemma interest_body_shrinks x s : shrinks s (interest_body x s).2.
Proof. destruct x. by split. Qed.

Lemma tax_body_shrinks ed x s : shrinks s (tax_body ed x s).2.
Proof.
  destruct x as [[i nb] t]. unfold tax_body. unfold_m. simpl.
  destruct (nb <? ed)%float; simpl; split; try done.
  intros j Hj. cbn [balances with_balances with_events] in Hj. destruct (decide (i = j)) as [<-|Hne].
  - rewrite lookup_delete_eq in Hj. by destruct Hj.
  - by rewrite lookup_delete_ne in Hj.
Qed.

Lemma boc_shrinks s s' :
  shrinks s s' -> balances_of_customers (users s) (balances s) ->
  balances_of_customers (users s') (balances s').
Proof. intros [Hu Hb] H i Hi. rewrite Hu. auto. Qed.

Lemma assert_role_customer s user i :
  assert_role s user Customer = Ok i -> customer_id (users s) i.
Proof.
  unfold assert_role, role_eqb. destruct (users s !! user) as [u|] eqn:Hu; [|done].
  case_bool_decide; intros; simplify_eq. by exists user, u.
Qed.

Lemma customer_with_id_found us target x :
  find (customer_with_id target) (map_to_list us) = Some x -> customer_id us target.
Proof.
  intros Hf. apply find_some in Hf as [Hin Hc]. destruct x as [k u].
  apply list_elem_of_In, elem_of_map_to_list in Hin. unfold customer_with_id, role_eqb in Hc.
  simpl in Hc. apply andb_prop in Hc as [Hi Hr].
  apply N.eqb_eq in Hi. apply bool_decide_eq_true in Hr. by exists k, u.
Qed.

Lemma has_username_false s uname k u :
  has_username s uname = false -> users s !! k = Some u -> username u <> uname.
Proof.
  unfold has_username. intros Hh Hk Heq.
  assert (Hin : (k, u) ∈ map_to_list (users s)) by by apply elem_of_map_to_list.
  apply list_elem_of_In in Hin.
  pose proof (existsb_exists (fun '(_, u) => bool_decide (username u = uname))
                (map_to_list (users s))) as [_ Hx].
  rewrite Hx in Hh; [done|]. exists (k, u). split; [done|].
  by apply bool_decide_eq_true.
Qed.

Lemma key_free_None us k : key_free us k = true -> us !! k = None.
Proof. unfold key_free. by destruct (us !! k). Qed.

Section Invariant.

Variable hash : string -> string -> HashResult.

Lemma create_user_boc uname password r s :
  fresh_step hash s (OpCreateUser uname password r) = true ->
  balances_of_customers (users s) (balances s) ->
  balances_of_customers (users (create_user hash uname password r s).2)
                        (balances (create_user hash uname password r s).2).
Proof.
  intros Hf Hb. unfold create_user, generate_next_user_id. unfold_m. simpl.
  simpl in Hf. destruct (has_username s uname) eqn:Hh; simpl; [done|].
  apply key_free_None in Hf. cbn [users balances with_users with_counter].
  set (nu := mkUser _ uname r).
  assert (Hkeep : keeps_records (users s) (<[hash uname password:=nu]> (users s))).
  { intros k u Hk. exists k. rewrite lookup_insert_ne; [done|congruence]. }
  exact (boc_keep _ _ _ Hkeep Hb).
Qed.

Lemma change_password_boc user np s :
  fresh_step hash s (OpChangePassword user np) = true ->
  balances_of_customers (users s) (balances s) ->
  balances_of_customers (users (change_password hash user np s).2)
                        (balances (change_password hash user np s).2).
Proof.
  intros Hf Hb. unfold change_password. unfold_m. simpl. simpl in Hf.
  destruct (users s !! user) as [ud|] eqn:Hud; simpl.
  2:{ destruct s; unfold with_users; cbn in *. by rewrite delete_id. }
  apply key_free_None in Hf. cbn [users balances with_users].
  set (nh := hash (username ud) np) in *.
  assert (Hkeep : keeps_records (users s) (<[nh:=ud]> (delete user (users s)))).
  { intros k u Hk. destruct (decide (user = k)) as [<-|Hne].
    - simplify_eq. exists nh. by rewrite lookup_insert_eq.
    - exists k. assert (delete user (users s) !! k = Some u)
        by by rewrite lookup_delete_ne.
      rewrite lookup_insert_ne; [done|congruence]. }
  exact (boc_keep _ _ _ Hkeep Hb).
Qed.

(** Close an invariant goal whose state only differs from [s] in its
    Balance Store, event log or rates. *)
Ltac inv_close :=
  cbn [users balances with_balances with_events with_interest_rate
       with_tax_rate] in *;
  repeat match goal with
  | |- balances_of_customers _ (<[_:=_]> _) => apply boc_insert
  | |- balances_of_customers _ (delete _ _) => apply boc_delete
  | |- balances_of_customers _ (_ <$> _) => apply boc_fmap
  | H : assert_role _ _ Customer = Ok ?i |- customer_id _ ?i =>
      exact (assert_role_customer _ _ _ H)
  | H : find (customer_with_id ?t) _ = Some _ |- customer_id _ ?t =>
      exact (customer_with_id_found _ _ _ H)
  end; try done.

Lemma deposit_boc user amount s :
  balances_of_customers (users s) (balances s) ->
  balances_of_customers (users (deposit user amount s).2) (balances (deposit user amount s).2).
Proof.
  intros Hb. unfold deposit. unfold_m. simpl.
  repeat (case_match; simplify_eq/=); inv_close.
Qed.

Lemma withdraw_boc user amount s :
  balances_of_customers (users s) (balances s) ->
  balances_of_customers (users (withdraw user amount s).2) (balances (withdraw user amount s).2).
Proof.
  intros Hb. unfold withdraw. unfold_m. simpl.
  repeat (case_match; simplify_eq/=); inv_close.
Qed.

Lemma transfer_boc user amount target s :
  balances_of_customers (users s) (balances s) ->
  balances_of_customers (users (transfer user amount target s).2)
                        (balances (transfer user amount target s).2).
Proof.
  intros Hb. unfold transfer. unfold_m. simpl.
  repeat (case_match; simplify_eq/=); inv_close.
Qed.

Lemma set_interest_rate_boc user rate s :
  balances_of_customers (users s) (balances s) ->
  balances_of_customers (users (set_interest_rate user rate s).2)
                        (balances (set_interest_rate user rate s).2).
Proof.
  intros Hb. unfold set_interest_rate. unfold_m. simpl.
  repeat (case_match; simplify_eq/=); inv_close.
Qed.

Lemma set_tax_rate_boc user rate s :
  balances_of_customers (users s) (balances s) ->
  balances_of_customers (users (set_tax_rate user rate s).2)
                        (balances (set_tax_rate user rate s).2).
Proof.
  intros Hb. unfold set_tax_rate. unfold_m. simpl.
  repeat (case_match; simplify_eq/=); inv_close.
Qed.

Lemma pay_interest_boc user s :
  balances_of_customers (users s) (balances s) ->
  balances_of_customers (users (pay_interest user s).2) (balances (pay_interest user s).2).
Proof.
  intros Hi. unfold pay_interest. unfold_m. simpl.
  destruct (require_role s user Manager); simpl; [|done].
  match goal with |- context [for_each interest_body ?l ?s1] =>
    pose proof (for_each_shrinks interest_body l interest_body_shrinks s1) as Hs;
    destruct (for_each interest_body l s1) as [[a' | e'] s2]; simpl in * end;
  (eapply boc_shrinks; [exact Hs|]); inv_close.
Qed.

Lemma take_tax_boc user s :
  balances_of_customers (users s) (balances s) ->
  balances_of_customers (users (take_tax user s).2) (balances (take_tax user s).2).
Proof.
  intros Hi. unfold take_tax. unfold_m. simpl.
  destruct (require_role s user Auditor); simpl; [|done].
  match goal with |- context [for_each (tax_body ?ed) ?l ?s1] =>
    pose proof (for_each_shrinks (tax_body ed) l (tax_body_shrinks ed) s1) as Hs;
    destruct (for_each (tax_body ed) l s1) as [[a' | e'] s2]; simpl in * end;
  (eapply boc_shrinks; [exact Hs|]); inv_close.
Qed.

Lemma exec_boc (o : Op) (s : Bank) :
  fresh_step hash s o = true ->
  balances_of_customers (users s) (balances s) ->
  balances_of_customers (users (exec hash o s).2) (balances (exec hash o s).2).
Proof.
  intros Hf Hi. destruct o; simpl; unfold bind, get;
    try (rewrite observe_state; exact Hi).
  - by apply create_user_boc.
  - by apply change_password_boc.
  - by apply deposit_boc.
  - by apply withdraw_boc.
  - by apply transfer_boc.
  - by apply set_interest_rate_boc.
  - by apply set_tax_rate_boc.
  - by apply pay_interest_boc.
  - by apply take_tax_boc.
Qed.

Lemma run_boc (ops : list Op) (s : Bank) :
  fresh_run hash s ops = true ->
  balances_of_customers (users s) (balances s) ->
  balances_of_customers (users (run hash s ops)) (balances (run hash s ops)).
Proof.
  revert s. induction ops as [|o ops IH]; intros s Hf Hi; simpl; [done|].
  simpl in Hf. apply andb_prop in Hf as [Ho Hf].
  apply IH; [exact Hf|]. by apply exec_boc.
Qed.

Lemma default_boc : balances_of_customers (users Bank_default) (balances Bank_default).
Proof. intros uid Hs. simpl in Hs. rewrite lookup_empty in Hs. by destruct Hs. Qed.

(** Claim C9, as the code has it: along a run from [Bank::default()] in
    which no [create_user] or [change_password] stores its record over the
    Directory entry of another record ([fresh_run]), every key of the
    Balance Store is the id of a user present in the Directory whose role is
    Customer.  Without that condition a [HashResult] collision lets
    [HashMap::insert] overwrite a Customer and orphan its balance. *)
Theorem balances_belong_to_customers_no_overwrite (ops : list Op) (uid : UserId)
    (b : Balance) :
  fresh_run hash Bank_default ops = true ->
  balances (run hash Bank_default ops) !! uid = Some b ->
  exists k u, users (run hash Bank_default ops) !! k = Some u /\
              id u = uid /\ role u = Customer.
Proof.
  intros Hf Hb. apply (run_boc ops Bank_default Hf default_boc). by exists b.
Qed.

End Invariant.

(* ================================================================== *)
(** * Concrete runs *)

Ltac split_conj := repeat match goal with |- _ /\ _ => split end.

(** [setup_account] of the tests: a user whose password is its name. *)
Definition cred (name : string) : HashResult := model_hash name name.

Definition two_customers : Bank :=
  run model_hash Bank_default
    [OpCreateUser "user1" "user1" Customer; OpDeposit (cred "user1") 1000%float;
     OpCreateUser "user2" "user2" Customer; OpDeposit (cred "user2") 1000%float].

(** The [can_transfer] test: transfer 500, then the reaping transfer of 496. *)
Example can_transfer_model :
  let s1 := (transfer (cred "user1") 500%float 2%N two_customers).2 in
  check_balance s1 (cred "user1") = Ok 500%float /\
  check_balance s1 (cred "user2") = Ok 1500%float /\
  let s2 := (transfer (cred "user1") 496%float 2%N s1).2 in
  check_balance s2 (cred "user1") = Ok 0%float /\
  check_balance s2 (cred "user2") = Ok 1996%float /\
  last (events s2) = Some (Transfer 1%N 2%N 496%float).
Proof. vm_compute. repeat split. Qed.

(** The [can_take_tax] test. *)
Example can_take_tax_model :
  let s := run model_hash Bank_default
             [OpCreateUser "roy" "roy" Customer; OpDeposit (cred "roy") 1000%float;
              OpCreateUser "auditor" "auditor" Auditor; OpTakeTax (cred "auditor")] in
  check_balance s (cred "roy") = Ok 980%float.
Proof. vm_compute. reflexivity. Qed.

(** The [can_pay_interest] test. *)
Example can_pay_interest_model :
  let s := run model_hash Bank_default
             [OpCreateUser "roy" "roy" Customer; OpDeposit (cred "roy") 1000%float;
              OpCreateUser "manager" "manager" Manager; OpPayInterest (cred "manager")] in
  check_balance s (cred "roy") = Ok 1010%float.
Proof. vm_compute. reflexivity. Qed.

(** A run of the failing case of the spec's scenario: withdrawing 1001 from
    an account holding 1000. *)
Lemma exec_err_state_unchanged_witness :
  (exec model_hash (OpWithdraw (cred "user1") 1001%float) two_customers).1
    = Err InsufficientBalance /\
  (exec model_hash (OpWithdraw (cred "user1") 1001%float) two_customers).2
    = two_customers.
Proof.
  split; [vm_compute; reflexivity|].
  apply (exec_err_state_unchanged model_hash _ _ InsufficientBalance).
  vm_compute. reflexivity.
Defined.

Lemma exec_events_append_only_witness :
  (exec model_hash (OpWithdraw (cred "user1") 1001%float) two_customers).1
    = Err InsufficientBalance /\
  events (exec model_hash (OpWithdraw (cred "user1") 1001%float) two_customers).2
    = events two_customers.
Proof.
  assert (E : (exec model_hash (OpWithdraw (cred "user1") 1001%float) two_customers).1
              = Err InsufficientBalance) by (vm_compute; reflexivity).
  split; [exact E|].
  exact (proj2 (exec_events_append_only model_hash _ _) _ E).
Defined.

(** [user1] sets the password "secret". *)
Definition password_changed : Bank :=
  (change_password model_hash (cred "user1") "secret" two_customers).2.

Lemma change_password_frame_witness :
  change_password model_hash (cred "user1") "secret" two_customers
    = (Ok tt, password_changed) /\
  exists u, users two_customers !! cred "user1" = Some u /\
    users password_changed !! model_hash (username u) "secret" = Some u /\
    events password_changed = events two_customers.
Proof.
  assert (E : change_password model_hash (cred "user1") "secret" two_customers
              = (Ok tt, password_changed)) by (vm_compute; reflexivity).
  split; [exact E|].
  destruct (change_password_frame model_hash _ _ _ _ E)
    as (u & H1 & H2 & _ & H3 & _).
  exists u. auto.
Defined.

Lemma change_password_rekeys_witness :
  change_password model_hash (cred "user1") "secret" two_customers
    = (Ok tt, password_changed) /\
  users password_changed !! cred "user1" = None.
Proof.
  assert (E : change_password model_hash (cred "user1") "secret" two_customers
              = (Ok tt, password_changed)) by (vm_compute; reflexivity).
  split; [exact E|].
  destruct (change_password_rekeys model_hash _ _ _ _ E) as (u & Hu & _ & Hold).
  apply Hold. vm_compute in Hu. injection Hu as <-. vm_compute. discriminate.
Defined.

(** "roy" registered with password "pw", then "pw" set again. *)
Definition roy_registered : Bank :=
  run model_hash Bank_default [OpCreateUser "roy" "pw" Customer].

Definition roy_same_password : Bank :=
  (change_password model_hash (model_hash "roy" "pw") "pw" roy_registered).2.

(** Counterexample to claim C8: setting the same password again succeeds and
    the old credential still has its Directory entry. *)
Lemma change_password_same_password_cex :
  ~ (forall (user : HashResult) (np : string) (s s' : Bank),
       change_password model_hash user np s = (Ok tt, s') -> users s' !! user = None).
Proof.
  intros H.
  assert (E : change_password model_hash (model_hash "roy" "pw") "pw" roy_registered
              = (Ok tt, roy_same_password)) by (vm_compute; reflexivity).
  pose proof (H _ _ _ _ E) as Hn. vm_compute in Hn. discriminate.
Qed.

(** "boss", a Manager, is user 1. *)
Definition boss_registered : Bank :=
  run model_hash Bank_default [OpCreateUser "boss" "boss" Manager].

(** Counterexample to claim C5: a Manager transferring to its own id is
    refused with [Unauthorized]. *)
Lemma transfer_to_self_manager_cex :
  users boss_registered !! cred "boss" = Some (mkUser 1%N "boss" Manager) /\
  transfer (cred "boss") 10%float 1%N boss_registered
    = (Err Unauthorized, boss_registered).
Proof. split; vm_compute; reflexivity. Qed.




(** A Customer whose only deposit was NaN ([NaN <= 0] and [NaN < ED] are
    both false, so [deposit] accepts it and creates the entry). *)
Definition nan_customer : Bank :=
  run model_hash Bank_default
    [OpCreateUser "roy" "roy" Customer; OpDeposit (cred "roy") nan].

(** Counterexample to claim C4: the entry NaN is not < 1, yet withdrawing 1
    fails [InsufficientBalance] ([NaN >= 1] is false) and logs nothing. *)
Lemma withdraw_nan_entry_cex :
  users nan_customer !! cred "roy" = Some (mkUser 1%N "roy" Customer) /\
  balances nan_customer !! 1%N = Some nan /\
  (nan <? 1)%float = false /\
  withdraw (cred "roy") 1%float nan_customer = (Err InsufficientBalance, nan_customer).
Proof. split_conj; vm_compute; reflexivity. Qed.

Lemma withdraw_postcondition_witness :
  users two_customers !! cred "user1" = Some (mkUser 1%N "user1" Customer) /\
  withdraw (cred "user1") 500%float two_customers
    = (Ok tt, with_balances (insert 1%N 500%float)
                (with_events (fun evs => evs ++ [Withdrawal 1%N 500%float]) two_customers)).
Proof.
  assert (H1 : users two_customers !! cred "user1" = Some (mkUser 1%N "user1" Customer))
    by (vm_compute; reflexivity).
  split; [exact H1|].
  pose proof (withdraw_postcondition _ 500%float _ _ H1 eq_refl eq_refl) as H.
  set (w := withdraw (cred "user1") 500%float two_customers) in *. clearbody w.
  (* the entry is 1000; 500 <= 1000 and 500 >= ED *)
  vm_compute in H. rewrite H. vm_compute. reflexivity.
Defined.

(** Customer 1 holds 1002 and customer 2 holds 2^53. *)
Definition big_pair : Bank :=
  run model_hash Bank_default
    [OpCreateUser "user1" "user1" Customer; OpDeposit (cred "user1") 1002%float;
     OpCreateUser "user2" "user2" Customer;
     OpDeposit (cred "user2") 9007199254740992%float].

(** Counterexample to claim C7: transferring 5 from customer 1 to customer 2
    takes 5 from the sender, who is not reaped, but the receiver's f64 sum
    2^53 + 5 rounds to 2^53 + 4; the two balances add up (exactly:
    2^53 + 1001; in f64: 2^53 + 1000) to less than before (2^53 + 1002). *)
Lemma transfer_rounding_cex :
  (transfer (cred "user1") 5%float 2%N big_pair).1 = Ok tt /\
  balances big_pair !! 1%N = Some 1002%float /\
  balances big_pair !! 2%N = Some 9007199254740992%float /\
  balances (transfer (cred "user1") 5%float 2%N big_pair).2 !! 1%N = Some 997%float /\
  balances (transfer (cred "user1") 5%float 2%N big_pair).2 !! 2%N
    = Some 9007199254740996%float /\
  (997 + 9007199254740996 =? 1002 + 9007199254740992)%float = false.
Proof. split_conj; vm_compute; reflexivity. Qed.

Definition transferred : Bank :=
  (transfer (cred "user1") 500%float 2%N two_customers).2.

Lemma transfer_balances_witness :
  transfer (cred "user1") 500%float 2%N two_customers = (Ok tt, transferred) /\
  balances transferred !! 2%N = Some (1000 + 500)%float.
Proof.
  assert (E : transfer (cred "user1") 500%float 2%N two_customers = (Ok tt, transferred))
    by (vm_compute; reflexivity).
  assert (H1 : users two_customers !! cred "user1" = Some (mkUser 1%N "user1" Customer))
    by (vm_compute; reflexivity).
  assert (Hne : id (mkUser 1%N "user1" Customer) <> 2%N) by (simpl; discriminate).
  split; [exact E|].
  destruct (transfer_balances (cred "user1") 500%float 2%N two_customers transferred _
              H1 Hne E) as (a & _ & Ht & _).
  etransitivity; [exact Ht|]. vm_compute. reflexivity.
Defined.

(** Customer 1 deposits [f64::MAX] twice, so its entry overflows to
    +infinity; the auditor (user 2) then sets the tax rate to 1. *)
Definition overflowed : Bank :=
  run model_hash Bank_default
    [OpCreateUser "roy" "roy" Customer; OpDeposit (cred "roy") Balance_MAX;
     OpDeposit (cred "roy") Balance_MAX;
     OpCreateUser "auditor" "auditor" Auditor; OpSetTaxRate (cred "auditor") 1%float].

(** Claim C1 (ED floor) fails on a reachable state: [take_tax] at rate 1 on
    the +infinity entry computes [inf * (1 - 1) = NaN]; [NaN < ED] is false,
    so the entry is kept with the value NaN, which is not >= ED, and only a
    [Tax] event is logged, no [AccountReaped]. *)
Theorem take_tax_keeps_nan_entry :
  balances overflowed !! 1%N = Some infinity /\
  tax_rate overflowed = 1%float /\
  (take_tax (cred "auditor") overflowed).1 = Ok tt /\
  (exists v, balances (take_tax (cred "auditor") overflowed).2 !! 1%N = Some v /\
             is_nan v = true /\ (existential_deposit overflowed <=? v)%float = false) /\
  events (take_tax (cred "auditor") overflowed).2
    = events overflowed ++ [Tax 1%N infinity].
Proof.
  split_conj; try (vm_compute; reflexivity).
  exists nan. vm_compute. auto.
Qed.

(** A run on which the deposit went to a Customer and the transfer to a
    Manager was refused. *)
Definition customer_and_manager_ops : list Op :=
  [OpCreateUser "roy" "roy" Customer; OpDeposit (cred "roy") 1000%float;
   OpCreateUser "boss" "boss" Manager; OpDeposit (cred "boss") 1000%float;
   OpTransfer (cred "roy") 500%float 2%N].

Lemma balances_belong_to_customers_witness :
  fresh_run model_hash Bank_default customer_and_manager_ops = true /\
  balances (run model_hash Bank_default customer_and_manager_ops) !! 1%N = Some 1000%float /\
  exists k u, users (run model_hash Bank_default customer_and_manager_ops) !! k = Some u /\
              id u = 1%N /\ role u = Customer.
Proof.
  assert (Hf : fresh_run model_hash Bank_default customer_and_manager_ops = true)
    by (vm_compute; reflexivity).
  assert (H : balances (run model_hash Bank_default customer_and_manager_ops) !! 1%N
              = Some 1000%float) by (vm_compute; reflexivity).
  split; [exact Hf|]. split; [exact H|].
  exact (balances_belong_to_customers_no_overwrite model_hash
           customer_and_manager_ops 1%N 1000%float Hf H).
Defined.

(** The SipHash model agrees with the reference test vector of SipHash-2-4
    (key 00 01 .. 0f, message 00 01 .. 0e). *)
Lemma siphash_reference_vector :
  siphash 2 4 0x0706050403020100 0x0f0e0d0c0b0a0908 (map N.of_nat (seq 0 15))
  = 0xa129ca6149be45e5%N.
Proof. vm_compute. reflexivity. Qed.

(** Two usernames whose credentials with password "pw" collide under
    [DefaultHasher]. *)
Definition collision_ops : list Op :=
  [OpCreateUser "e79c310d4bd37061" "pw" Customer;
   OpDeposit (default_hash "e79c310d4bd37061" "pw") 1000%float;
   OpCreateUser "75f4e5f4dce1b511" "pw" Manager].

(** With [DefaultHasher], the usernames "e79c310d4bd37061" and
    "75f4e5f4dce1b511" with password "pw" hash to the same [u64].  Creating
    the first as a Customer, depositing 1000 and then creating the second as
    a Manager makes [HashMap::insert] replace the Customer: the Balance Store
    keeps the entry 1000 under id 1, and the Directory holds only the
    Manager, of id 2. *)
Lemma collision_orphans_balance :
  default_hash "e79c310d4bd37061" "pw" = 0x80edd0422524cca7%N /\
  default_hash "75f4e5f4dce1b511" "pw" = 0x80edd0422524cca7%N /\
  users (run default_hash Bank_default collision_ops)
    = {[ 0x80edd0422524cca7%N := mkUser 2%N "75f4e5f4dce1b511" Manager ]} /\
  balances (run default_hash Bank_default collision_ops) !! 1%N = Some 1000%float /\
  ~ (exists k u, users (run default_hash Bank_default collision_ops) !! k = Some u /\
                 id u = 1%N /\ role u = Customer).
Proof.
  assert (Hd : users (run default_hash Bank_default collision_ops)
               = {[ 0x80edd0422524cca7%N := mkUser 2%N "75f4e5f4dce1b511" Manager ]})
    by (vm_compute; reflexivity).
  split_and!; try exact Hd; try (vm_compute; reflexivity).
  intros (k & u & Hk & Hi & Hr). rewrite Hd in Hk.
  apply lookup_singleton_Some in Hk as [_ <-]. discriminate.
Qed.

(* ================================================================== *)
(** * Further properties of the code *)

(** ** Directory queries *)

Lemma has_username_iff (s : Bank) (name : string) :
  has_username s name = true <->
  exists k u, users s !! k = Some u /\ username u = name.
Proof.
  unfold has_username. rewrite existsb_exists. split.
  - intros ([k u] & Hin & Hb). simpl in Hb.
    apply list_elem_of_In, elem_of_map_to_list in Hin.
    apply bool_decide_eq_true in Hb. eauto.
  - intros (k & u & Hk & Hn). exists (k, u). split.
    + by apply list_elem_of_In, elem_of_map_to_list.
    + by apply bool_decide_eq_true.
Qed.

Lemma assert_role_same_users s s' user r :
  users s' = users s -> assert_role s' user r = assert_role s user r.
Proof. intros Hu. unfold assert_role. by rewrite Hu. Qed.

(** Extra property: [has_username] is true exactly when some Directory entry
    carries that username. *)
Theorem has_username_spec (s : Bank) (name : string) :
  has_username s name = true <->
  exists k u, users s !! k = Some u /\ username u = name.
Proof. apply has_username_iff. Qed.

(** Extra property: registering a fresh username succeeds, stores the user
    under [hash name password] with the next id of the counter, and
    [login] with the same name and password then returns that credential and
    the chosen role. *)
Theorem create_user_then_login (hash : string -> string -> HashResult)
    (s : Bank) (name password : string) (r : Role) :
  has_username s name = false ->
  (create_user hash name password r s).1 = Ok tt /\
  users (create_user hash name password r s).2 !! hash name password =
    Some (mkUser ((user_id_counter s + 1) mod 2 ^ 64)%N name r) /\
  user_id_counter (create_user hash name password r s).2 =
    ((user_id_counter s + 1) mod 2 ^ 64)%N /\
  login hash (create_user hash name password r s).2 name password =
    Ok (hash name password, r).
Proof.
  intros Hh. unfold create_user, generate_next_user_id. unfold_m. simpl.
  rewrite Hh. simpl. unfold login.
  cbn [fst snd users with_users with_counter user_id_counter].
  rewrite lookup_insert_eq. repeat split.
Qed.

(** Extra property: once [create_user] has registered a username, any
    further [create_user] with that username (whatever the password and
    role) fails with [UserAlreadyExist] and leaves the state as it was. *)
Theorem create_user_username_taken (hash : string -> string -> HashResult)
    (s : Bank) (name p1 p2 : string) (r1 r2 : Role) :
  (create_user hash name p1 r1 s).1 = Ok tt ->
  create_user hash name p2 r2 (create_user hash name p1 r1 s).2 =
    (Err UserAlreadyExist, (create_user hash name p1 r1 s).2).
Proof.
  intros Hok.
  assert (Hh : has_username s name = false).
  { destruct (has_username s name) eqn:Hh; [|done].
    unfold create_user in Hok. unfold_m. simpl in Hok. by rewrite Hh in Hok. }
  unfold create_user, generate_next_user_id. unfold_m. simpl. rewrite Hh. simpl.
  match goal with |- context [has_username ?s1 name] =>
    assert (Ht : has_username s1 name = true) end.
  { apply has_username_iff. exists (hash name p1). eexists.
    cbn [users with_users with_counter]. rewrite lookup_insert_eq.
    split; reflexivity. }
  by rewrite Ht.
Qed.

(** ** Deposit read back through [check_balance] *)

(** Extra property: after a successful [deposit] by a Customer with id [i],
    [check_balance] returns the previous entry plus the amount, or the amount
    itself when the Customer had no entry. *)
Theorem deposit_then_check_balance (user : HashResult) (amount : Balance)
    (s s' : Bank) (i : UserId) :
  assert_role s user Customer = Ok i ->
  deposit user amount s = (Ok tt, s') ->
  check_balance s' user =
    Ok (match balances s !! i with
        | Some b => (b + amount)%float
        | None => amount
        end).
Proof.
  intros Ha Hd. unfold deposit in Hd. unfold_m.
  destruct (amount <=? 0)%float; simpl in Hd; [discriminate|].
  rewrite Ha in Hd. simpl in Hd.
  unfold check_balance.
  destruct (balances s !! i) as [b|] eqn:Hb; simpl in Hd;
    [|destruct (amount <? existential_deposit s)%float; simpl in Hd;
      [discriminate|]];
    injection Hd as <-;
    rewrite (assert_role_same_users s) by reflexivity; rewrite Ha;
    cbn [balances with_balances with_events]; by rewrite lookup_insert_eq.
Qed.

(** ** Frames of the operations *)

Definition ledger_only (s s' : Bank) : Prop := dir_same s s' /\ config_same s s'.

Lemma ledger_only_refl s : ledger_only s s.
Proof. repeat split. Qed.

Lemma ledger_only_trans s1 s2 s3 :
  ledger_only s1 s2 -> ledger_only s2 s3 -> ledger_only s1 s3.
Proof.
  intros [[? ?] (? & ? & ?)] [[? ?] (? & ? & ?)].
  repeat split; congruence.
Qed.

Lemma for_each_rel {A} (R : Bank -> Bank -> Prop) (f : A -> M unit) (l : list A) :
  (forall s, R s s) -> (forall s1 s2 s3, R s1 s2 -> R s2 s3 -> R s1 s3) ->
  (forall x s, R s (f x s).2) -> forall s, R s (for_each f l s).2.
Proof.
  intros Hrefl Htr Hf. induction l as [|x l IH]; intros s; simpl; [apply Hrefl|].
  unfold bind. specialize (Hf x s).
  destruct (f x s) as [[a|e] s1]; simpl in *; [|done].
  eapply Htr; [exact Hf|apply IH].
Qed.

Ltac frame_close :=
  unfold ledger_only, dir_same, config_same;
  cbn [users user_id_counter interest_rate tax_rate existential_deposit
       with_balances with_events with_users with_counter with_interest_rate
       with_tax_rate];
  repeat match goal with |- _ /\ _ => split end; reflexivity.

Lemma interest_body_ledger x s : ledger_only s (interest_body x s).2.
Proof. destruct x. frame_close. Qed.

Lemma tax_body_ledger ed x s : ledger_only s (tax_body ed x s).2.
Proof.
  destruct x as [[i nb] t]. unfold tax_body. unfold_m. simpl.
  destruct (nb <? ed)%float; simpl; frame_close.
Qed.

Lemma deposit_ledger user amount s : ledger_only s (deposit user amount s).2.
Proof. unfold deposit. unfold_m. repeat (case_match; simplify_eq/=); frame_close. Qed.

Lemma withdraw_ledger user amount s : ledger_only s (withdraw user amount s).2.
Proof. unfold withdraw. unfold_m. repeat (case_match; simplify_eq/=); frame_close. Qed.

Lemma transfer_ledger user amount target s :
  ledger_only s (transfer user amount target s).2.
Proof. unfold transfer. unfold_m. simpl. repeat (case_match; simplify_eq/=); frame_close. Qed.

Lemma pay_interest_ledger user s : ledger_only s (pay_interest user s).2.
Proof.
  unfold pay_interest. unfold_m. simpl.
  destruct (require_role s user Manager); simpl; [|frame_close].
  match goal with |- context [for_each interest_body ?l ?s1] =>
    pose proof (for_each_rel ledger_only interest_body l ledger_only_refl
                  ledger_only_trans interest_body_ledger s1) as Hs;
    destruct (for_each interest_body l s1) as [[a' | e'] s2]; simpl in * end;
  (eapply ledger_only_trans; [|exact Hs]); frame_close.
Qed.

Lemma take_tax_ledger user s : ledger_only s (take_tax user s).2.
Proof.
  unfold take_tax. unfold_m. simpl.
  destruct (require_role s user Auditor); simpl; [|frame_close].
  match goal with |- context [for_each (tax_body ?ed) ?l ?s1] =>
    pose proof (for_each_rel ledger_only (tax_body ed) l ledger_only_refl
                  ledger_only_trans (tax_body_ledger ed) s1) as Hs;
    destruct (for_each (tax_body ed) l s1) as [[a' | e'] s2]; simpl in * end;
  (eapply ledger_only_trans; [|exact Hs]); frame_close.
Qed.

Lemma set_interest_rate_dir user rate s : dir_same s (set_interest_rate user rate s).2.
Proof. unfold set_interest_rate. unfold_m. repeat (case_match; simplify_eq/=); frame_close. Qed.

Lemma set_tax_rate_dir user rate s : dir_same s (set_tax_rate user rate s).2.
Proof. unfold set_tax_rate. unfold_m. repeat (case_match; simplify_eq/=); frame_close. Qed.

Lemma create_user_config hash uname password r s :
  config_same s (create_user hash uname password r s).2.
Proof.
  unfold create_user, generate_next_user_id. unfold_m. simpl.
  repeat (case_match; simplify_eq/=); frame_close.
Qed.

Lemma change_password_config hash user np s :
  config_same s (change_password hash user np s).2.
Proof. unfold change_password. unfold_m. simpl. repeat (case_match; simplify_eq/=); frame_close. Qed.

(** ** Unique user ids *)

Lemma ids_wf_dir_same s s' : dir_same s s' -> ids_wf s -> ids_wf s'.
Proof. intros [Hu Hc]. unfold ids_wf. by rewrite Hu, Hc. Qed.

Lemma create_user_ids hash uname password r s :
  ids_wf s -> (user_id_counter s + 1 < 2 ^ 64)%N ->
  ids_wf (create_user hash uname password r s).2 /\
  (user_id_counter (create_user hash uname password r s).2 <= user_id_counter s + 1)%N.
Proof.
  intros [Hle Huniq] Hc. unfold create_user, generate_next_user_id. unfold_m. simpl.
  destruct (has_username s uname); simpl; [split; [exact (conj Hle Huniq)|lia]|].
  unfold ids_wf. cbn [users user_id_counter with_users with_counter].
  rewrite N.mod_small by lia.
  split; [split|lia].
  - intros k u Hk. destruct (decide (hash uname password = k)) as [<-|Hne].
    + rewrite lookup_insert_eq in Hk. injection Hk as <-. simpl. lia.
    + rewrite lookup_insert_ne in Hk by done. specialize (Hle _ _ Hk). lia.
  - intros k1 k2 u1 u2 Hk1 Hk2 Hid.
    destruct (decide (hash uname password = k1)) as [<-|Hne1];
    destruct (decide (hash uname password = k2)) as [<-|Hne2]; try done.
    + rewrite lookup_insert_eq in Hk1. rewrite lookup_insert_ne in Hk2 by done.
      injection Hk1 as <-. specialize (Hle _ _ Hk2). simpl in Hid. lia.
    + rewrite lookup_insert_eq in Hk2. rewrite lookup_insert_ne in Hk1 by done.
      injection Hk2 as <-. specialize (Hle _ _ Hk1). simpl in Hid. lia.
    + rewrite lookup_insert_ne in Hk1, Hk2 by done. eauto.
Qed.

Lemma change_password_ids hash user np s :
  ids_wf s ->
  ids_wf (change_password hash user np s).2 /\
  user_id_counter (change_password hash user np s).2 = user_id_counter s.
Proof.
  intros [Hle Huniq]. unfold change_password. unfold_m. simpl.
  destruct (users s !! user) as [ud|] eqn:Hud; simpl.
  2:{ destruct s; unfold with_users; cbn in *. rewrite delete_id by done.
      split; [split|]; done. }
  unfold ids_wf. cbn [users user_id_counter with_users]. split; [split|reflexivity].
  - intros k u Hk. destruct (decide (hash (username ud) np = k)) as [<-|Hne].
    + rewrite lookup_insert_eq in Hk. injection Hk as <-. eauto.
    + rewrite lookup_insert_ne in Hk by done.
      apply lookup_delete_Some in Hk as [_ Hk]. eauto.
  - intros k1 k2 u1 u2 Hk1 Hk2 Hid. set (nh := hash (username ud) np) in *.
    destruct (decide (nh = k1)) as [<-|Hne1];
    destruct (decide (nh = k2)) as [<-|Hne2]; try done.
    + rewrite lookup_insert_eq in Hk1. injection Hk1 as <-.
      rewrite lookup_insert_ne in Hk2 by done.
      apply lookup_delete_Some in Hk2 as [Hne Hk2]. exfalso. apply Hne.
      eapply Huniq; eauto.
    + rewrite lookup_insert_eq in Hk2. injection Hk2 as <-.
      rewrite lookup_insert_ne in Hk1 by done.
      apply lookup_delete_Some in Hk1 as [Hne Hk1]. exfalso. apply Hne.
      symmetry. eapply Huniq; eauto.
    + rewrite lookup_insert_ne in Hk1, Hk2 by done.
      apply lookup_delete_Some in Hk1 as [_ Hk1].
      apply lookup_delete_Some in Hk2 as [_ Hk2]. eauto.
Qed.

Lemma count_creates_cons o ops :
  count_creates (o :: ops) = (count_creates [o] + count_creates ops)%N.
Proof. destruct o; simpl; lia. Qed.

Lemma exec_ids hash (o : Op) (s : Bank) :
  ids_wf s -> (user_id_counter s + count_creates [o] < 2 ^ 64)%N ->
  ids_wf (exec hash o s).2 /\
  (user_id_counter (exec hash o s).2 <= user_id_counter s + count_creates [o])%N.
Proof.
  intros Hi Hc.
  assert (Hd : forall s', dir_same s s' ->
            ids_wf s' /\ (user_id_counter s' <= user_id_counter s + 0)%N).
  { intros s' Hs. split; [eapply ids_wf_dir_same; eauto|].
    destruct Hs as [_ ->]. lia. }
  destruct o; simpl in *; unfold bind, get;
    try (rewrite observe_state; split; [exact Hi|lia]).
  - by apply create_user_ids.
  - destruct (change_password_ids hash user new_password s Hi) as [H1 H2].
    split; [exact H1|lia].
  - apply Hd, deposit_ledger.
  - apply Hd, withdraw_ledger.
  - apply Hd, transfer_ledger.
  - apply Hd, set_interest_rate_dir.
  - apply Hd, set_tax_rate_dir.
  - apply Hd, pay_interest_ledger.
  - apply Hd, take_tax_ledger.
Qed.

Lemma run_ids hash (ops : list Op) (s : Bank) :
  ids_wf s -> (user_id_counter s + count_creates ops < 2 ^ 64)%N ->
  ids_wf (run hash s ops).
Proof.
  revert s. induction ops as [|o ops IH]; intros s Hi Hc; simpl; [done|].
  rewrite count_creates_cons in Hc.
  destruct (exec_ids hash o s Hi) as [Hi' Hc']; [lia|].
  apply IH; [exact Hi'|lia].
Qed.

(** Extra property: as long as fewer than 2^64 users have been registered
    (so the u64 id counter never wraps), no two Directory entries of a state
    reachable from [Bank::default()] carry the same user id. *)
Theorem user_ids_unique (hash : string -> string -> HashResult) (ops : list Op)
    (k1 k2 : HashResult) (u1 u2 : User) :
  (count_creates ops < 2 ^ 64)%N ->
  users (run hash Bank_default ops) !! k1 = Some u1 ->
  users (run hash Bank_default ops) !! k2 = Some u2 ->
  id u1 = id u2 -> k1 = k2.
Proof.
  intros Hc. apply run_ids; [|simpl; lia].
  split.
  - intros k u Hk. simpl in Hk. by rewrite lookup_empty in Hk.
  - intros k k' u u' Hk. simpl in Hk. by rewrite lookup_empty in Hk.
Qed.

(** ** The configuration stays in range *)

Lemma config_ok_same s s' : config_same s s' -> config_ok s -> config_ok s'.
Proof. intros (Hi & Ht & He). unfold config_ok. by rewrite Hi, Ht, He. Qed.

Lemma set_interest_rate_config user rate s :
  config_ok s -> config_ok (set_interest_rate user rate s).2.
Proof.
  intros Hc. unfold set_interest_rate. unfold_m.
  destruct (rate <? 0)%float eqn:Hr; simpl; [done|].
  repeat (case_match; simplify_eq/=); try done.
  destruct Hc as (He & Ht & Hi). unfold config_ok.
  cbn [existential_deposit tax_rate interest_rate with_events with_interest_rate].
  done.
Qed.

Lemma set_tax_rate_config user rate s :
  config_ok s -> config_ok (set_tax_rate user rate s).2.
Proof.
  intros Hc. unfold set_tax_rate. unfold_m.
  destruct (negb ((0 <=? rate) && (rate <=? 1)))%float eqn:Hr; simpl; [done|].
  apply negb_false_iff in Hr.
  repeat (case_match; simplify_eq/=); try done.
  destruct Hc as (He & Ht & Hi). unfold config_ok.
  cbn [existential_deposit tax_rate interest_rate with_events with_tax_rate].
  done.
Qed.

Lemma exec_config hash (o : Op) (s : Bank) :
  config_ok s -> config_ok (exec hash o s).2.
Proof.
  intros Hc. destruct o; simpl; unfold bind, get;
    try (rewrite observe_state; exact Hc).
  - eapply config_ok_same; [apply create_user_config|exact Hc].
  - eapply config_ok_same; [apply change_password_config|exact Hc].
  - eapply config_ok_same; [apply deposit_ledger|exact Hc].
  - eapply config_ok_same; [apply withdraw_ledger|exact Hc].
  - eapply config_ok_same; [apply transfer_ledger|exact Hc].
  - by apply set_interest_rate_config.
  - by apply set_tax_rate_config.
  - eapply config_ok_same; [apply pay_interest_ledger|exact Hc].
  - eapply config_ok_same; [apply take_tax_ledger|exact Hc].
Qed.

(** Extra property: in every state reachable from [Bank::default()], the
    existential deposit is still ED (5), the tax rate lies in [0, 1] and the
    interest rate is not below 0: no operation changes the existential
    deposit, and the two setters reject rates outside these ranges. *)
Theorem reachable_config (hash : string -> string -> HashResult) (ops : list Op) :
  existential_deposit (run hash Bank_default ops) = ED /\
  ((0 <=? tax_rate (run hash Bank_default ops)) &&
   (tax_rate (run hash Bank_default ops) <=? 1))%float = true /\
  (interest_rate (run hash Bank_default ops) <? 0)%float = false.
Proof.
  assert (H : forall s, config_ok s -> config_ok (run hash s ops)).
  { induction ops as [|o ops IH]; intros s Hc; simpl; [done|].
    apply IH, exec_config, Hc. }
  apply H. split; [reflexivity|]. split; vm_compute; reflexivity.
Qed.

(** ** A NaN interest rate *)

Lemma interest_step_nan (b : Balance) : interest_step nan b = nan.
Proof.
  unfold interest_step.
  replace (1 + nan)%float with nan by (vm_compute; reflexivity).
  replace (Balance_MAX / nan)%float with nan by (vm_compute; reflexivity).
  rewrite ltb_spec.
  replace (Prim2SF nan) with S754_nan by (vm_compute; reflexivity). simpl.
  apply Prim2SF_inj. rewrite mul_spec.
  replace (Prim2SF nan) with S754_nan by (vm_compute; reflexivity).
  by destruct (Prim2SF b).
Qed.

Lemma interest_loop_balances l s :
  balances (for_each interest_body l s).2 = balances s.
Proof.
  apply (for_each_rel (fun s s' => balances s' = balances s)); try done.
  - intros s1 s2 s3 -> ->. done.
  - intros [i v] s'. done.
Qed.

(** Extra property: [set_interest_rate] accepts NaN from a Manager (the
    check [rate < 0] is false for NaN), and a following [pay_interest] by
    that Manager succeeds and turns every entry of the Balance Store into
    NaN, keeping its keys. *)
Theorem nan_interest_rate_poisons_balances (s : Bank) (m : HashResult) (u : User) :
  users s !! m = Some u -> role u = Manager ->
  exists s1, set_interest_rate m nan s = (Ok tt, s1) /\
  exists s2, pay_interest m s1 = (Ok tt, s2) /\
             balances s2 = (fun _ => nan) <$> balances s.
Proof.
  intros Hu Hr. unfold set_interest_rate. unfold_m.
  replace (nan <? 0)%float with false by (vm_compute; reflexivity). simpl.
  rewrite Hu. unfold role_eqb. rewrite Hr. simpl.
  eexists. split; [reflexivity|].
  unfold pay_interest. unfold_m. simpl.
  unfold require_role. cbn [users with_events with_interest_rate].
  rewrite Hu. unfold role_eqb. rewrite Hr. simpl.
  match goal with |- context [for_each interest_body ?l ?s1] =>
    pose proof (interest_loop_balances l s1) as Hb;
    destruct (interest_loop_total l s1) as (a & s2 & E); rewrite E in Hb |- * end.
  simpl in Hb |- *. eexists. split; [reflexivity|]. rewrite Hb.
  cbn [balances interest_rate with_balances with_events with_interest_rate].
  apply map_fmap_ext. intros i x _. apply interest_step_nan.
Qed.

(** ** Reading the ledger *)

(** Extra property: a caller whose Directory entry has the Customer role is
    refused with [Unauthorized] by [report], [print_all_events] and
    [print_a_user_event], whatever role it claims and whatever user id it
    asks for. *)
Theorem customer_cannot_read_ledger (s : Bank) (user : HashResult) (u : User)
    (r : Role) (uid : UserId) :
  users s !! user = Some u -> role u = Customer ->
  report s user = Err Unauthorized /\
  print_all_events s user r = Err Unauthorized /\
  print_a_user_event s user r uid = Err Unauthorized.
Proof.
  intros Hu Hr. unfold report, print_all_events, print_a_user_event, assert_role.
  rewrite Hu, Hr. by destruct r.
Qed.

(** Extra property: [print_a_user_event] succeeds exactly when the claimed
    role is not Customer, the caller holds that role, and the requested id is
    the id of a Customer in the Directory; it then yields the events of that
    id selected by [iter_event]. *)
Theorem print_a_user_event_ok (s : Bank) (user : HashResult) (r : Role)
    (uid : UserId) (l : list Event) :
  print_a_user_event s user r uid = Ok l <->
  r <> Customer /\ (exists i, assert_role s user r = Ok i) /\
  customer_id (users s) uid /\ l = iter_event s uid.
Proof.
  unfold print_a_user_event, role_eqb. split.
  - case_bool_decide as Hc; [discriminate|].
    destruct (assert_role s user r) as [i|e]; [|discriminate].
    destruct (find (customer_with_id uid) (map_to_list (users s))) eqn:Hf;
      [|discriminate].
    intros [= <-]. split_and!; eauto. by eapply customer_with_id_found.
  - intros (Hc & [i Ha] & (k & u & Hk & Hi & Hr) & ->).
    case_bool_decide; [done|]. rewrite Ha.
    destruct (find (customer_with_id uid) (map_to_list (users s))) eqn:Hf; [done|].
    exfalso. pose proof (find_none _ _ Hf (k, u)) as Hn.
    unfold customer_with_id, role_eqb in Hn. simpl in Hn.
    rewrite Hi, Hr, N.eqb_refl in Hn. simpl in Hn.
    try rewrite bool_decide_eq_true_2 in Hn by done.
    assert (true = false) by (apply Hn; apply list_elem_of_In, elem_of_map_to_list, Hk).
    discriminate.
Qed.

(** Extra property: a successful [report] prints one line per Directory
    entry, and the line of every user shows that user together with its
    balance (0 if it has no entry) when it is a Customer, and no balance
    otherwise. *)
Theorem report_lists_directory (s : Bank) (user : HashResult)
    (lines : list (User * option Balance)) :
  report s user = Ok lines ->
  length lines = size (users s) /\
  forall k u, users s !! k = Some u ->
    In (u, if role_eqb (role u) Customer
           then Some (default 0%float (balances s !! id u)) else None) lines.
Proof.
  unfold report. destruct (users s !! user) as [v|]; [|discriminate].
  destruct (negb (role_eqb (role v) Customer)); [|discriminate].
  intros [= <-]. split.
  - by rewrite length_map, length_map_to_list.
  - intros k u Hk.
    apply (in_map (fun '(_, v) =>
             (v, if role_eqb (role v) Customer
                 then Some (default 0%float (balances s !! id v)) else None))
             (map_to_list (users s)) (k, u)).
    by apply list_elem_of_In, elem_of_map_to_list.
Qed.

(** ** Error messages *)

(** Extra property: the [Display] messages of [BankingError] are pairwise
    distinct, so the console tells every error apart. *)
Theorem error_messages_distinct (e1 e2 : BankingError) :
  error_message e1 = error_message e2 -> e1 = e2.
Proof. destruct e1, e2; simpl; intros H; first [reflexivity | discriminate H]. Qed.

(** ** Changing a password from the Manager and Auditor pages *)

Lemma trim_start_chars_head l c l' :
  trim_start_chars l = c :: l' -> is_ascii_whitespace c = false.
Proof.
  induction l as [|c0 l IH]; simpl; [discriminate|].
  destruct (is_ascii_whitespace c0) eqn:Hw; [exact IH|]. by intros [= <- _].
Qed.

Lemma list_ascii_of_string_append (a b : string) :
  list_ascii_of_string (String.append a b) = list_ascii_of_string a ++ list_ascii_of_string b.
Proof. induction a as [|c a IH]; simpl; [done|]. by rewrite IH. Qed.

(** A trimmed buffer never ends with a line terminator. *)
Lemma trim_not_read_line (buf typed : string) : trim buf <> read_line typed.
Proof.
  unfold trim, read_line. intros H.
  apply (f_equal list_ascii_of_string) in H.
  rewrite list_ascii_of_string_of_list_ascii, list_ascii_of_string_append in H.
  simpl in H.
  set (m := trim_start_chars _) in H.
  assert (Hm : m = "010"%char :: rev (list_ascii_of_string typed)).
  { rewrite <- (rev_involutive m), H, rev_app_distr. reflexivity. }
  apply trim_start_chars_head in Hm. discriminate.
Qed.

Section Shell.

Variable hash : string -> string -> HashResult.

(** [DefaultHasher] is assumed injective on (username, password) pairs. *)
Hypothesis hash_inj : forall u1 p1 u2 p2,
  hash u1 p1 = hash u2 p2 -> u1 = u2 /\ p1 = p2.

(** Extra property: when a Manager or Auditor changes a password from the
    console, the new password is the buffer read by [read_line], line
    terminator included. The user is stored under that credential, but
    [login_page] trims what is typed, so no username and password typed at
    the login page ever yield it: the user can no longer log in. *)
Theorem staff_password_change_locks_out (s : Bank) (user : HashResult)
    (ud : User) (typed : string) :
  users s !! user = Some ud ->
  (staff_change_password hash user typed s).1 = Ok tt /\
  users (staff_change_password hash user typed s).2
    !! hash (username ud) (read_line typed) = Some ud /\
  forall username_buf password_buf r,
    login_page hash (staff_change_password hash user typed s).2
      username_buf password_buf <> Ok (hash (username ud) (read_line typed), r).
Proof.
  intros Hu. unfold staff_change_password, change_password. unfold_m. simpl.
  rewrite Hu. simpl. cbn [users with_users].
  split_and!; [reflexivity|by rewrite lookup_insert_eq|].
  intros ub pb r. unfold login_page, login.
  destruct (_ !! hash (trim ub) (trim pb)); [|discriminate].
  intros [= Heq _]. apply hash_inj in Heq as [_ Hp].
  exact (trim_not_read_line pb typed Hp).
Qed.

End Shell.

(** ** Concrete runs for the further properties *)

Lemma model_hash_inj : forall u1 p1 u2 p2,
  model_hash u1 p1 = model_hash u2 p2 -> u1 = u2 /\ p1 = p2.
Proof.
  intros u1 p1 u2 p2 Heq. unfold model_hash in Heq.
  injection Heq as Heq. apply (inj encode) in Heq. by injection Heq.
Qed.

(** A Customer with 1000, a Manager and an Auditor. *)
Definition staffed_ops : list Op :=
  [OpCreateUser "roy" "roy" Customer; OpDeposit (cred "roy") 1000%float;
   OpCreateUser "boss" "boss" Manager; OpCreateUser "auditor" "auditor" Auditor].

Definition staffed_bank : Bank := run model_hash Bank_default staffed_ops.

Lemma create_user_then_login_witness :
  has_username staffed_bank "eve" = false /\
  login model_hash (create_user model_hash "eve" "pw" Customer staffed_bank).2 "eve" "pw"
    = Ok (model_hash "eve" "pw", Customer).
Proof.
  assert (H : has_username staffed_bank "eve" = false) by (vm_compute; reflexivity).
  split; [exact H|].
  exact (proj2 (proj2 (proj2
           (create_user_then_login model_hash staffed_bank "eve" "pw" Customer H)))).
Defined.

Lemma create_user_username_taken_witness :
  create_user model_hash "eve" "other" Manager
    (create_user model_hash "eve" "pw" Customer staffed_bank).2 =
  (Err UserAlreadyExist, (create_user model_hash "eve" "pw" Customer staffed_bank).2).
Proof.
  apply (create_user_username_taken model_hash staffed_bank "eve" "pw" "other"
           Customer Manager).
  vm_compute. reflexivity.
Defined.

Lemma deposit_then_check_balance_witness :
  check_balance (deposit (cred "roy") 5%float staffed_bank).2 (cred "roy") = Ok 1005%float.
Proof.
  assert (Ha : assert_role staffed_bank (cred "roy") Customer = Ok 1%N)
    by (vm_compute; reflexivity).
  refine (eq_trans (deposit_then_check_balance (cred "roy") 5%float staffed_bank
                      (deposit (cred "roy") 5%float staffed_bank).2 1%N Ha _) _).
  - vm_compute. reflexivity.
  - vm_compute. reflexivity.
Defined.

Definition renamed_ops : list Op :=
  staffed_ops ++ [OpChangePassword (cred "boss") "new"].

Lemma user_ids_unique_witness :
  (count_creates renamed_ops < 2 ^ 64)%N /\
  users (run model_hash Bank_default renamed_ops) !! model_hash "boss" "new" =
    Some (mkUser 2%N "boss" Manager) /\
  model_hash "boss" "new" = model_hash "boss" "new".
Proof.
  assert (Hc : (count_creates renamed_ops < 2 ^ 64)%N) by (vm_compute; reflexivity).
  assert (Hk : users (run model_hash Bank_default renamed_ops) !! model_hash "boss" "new" =
                 Some (mkUser 2%N "boss" Manager)) by (vm_compute; reflexivity).
  split; [exact Hc|]. split; [exact Hk|].
  exact (user_ids_unique model_hash renamed_ops _ _ _ _ Hc Hk Hk eq_refl).
Defined.

Lemma nan_interest_rate_poisons_balances_witness :
  exists s1, set_interest_rate (cred "boss") nan staffed_bank = (Ok tt, s1) /\
  exists s2, pay_interest (cred "boss") s1 = (Ok tt, s2) /\
             balances s2 = (fun _ => nan) <$> balances staffed_bank.
Proof.
  apply (nan_interest_rate_poisons_balances staffed_bank (cred "boss")
           (mkUser 2%N "boss" Manager)).
  - vm_compute. reflexivity.
  - reflexivity.
Defined.

Lemma customer_cannot_read_ledger_witness :
  report staffed_bank (cred "roy") = Err Unauthorized /\
  print_all_events staffed_bank (cred "roy") Manager = Err Unauthorized /\
  print_a_user_event staffed_bank (cred "roy") Manager 1%N = Err Unauthorized.
Proof.
  apply (customer_cannot_read_ledger staffed_bank (cred "roy")
           (mkUser 1%N "roy" Customer) Manager 1%N).
  - vm_compute. reflexivity.
  - reflexivity.
Defined.

Definition staffed_report : list (User * option Balance) :=
  match report staffed_bank (cred "boss") with Ok l => l | Err _ => [] end.

Lemma report_lists_directory_witness :
  report staffed_bank (cred "boss") = Ok staffed_report /\
  length staffed_report = size (users staffed_bank).
Proof.
  assert (H : report staffed_bank (cred "boss") = Ok staffed_report)
    by (vm_compute; reflexivity).
  split; [exact H|].
  exact (proj1 (report_lists_directory staffed_bank (cred "boss") staffed_report H)).
Defined.

Lemma error_messages_distinct_witness :
  error_message InvalidTaxRate = error_message InvalidTaxRate /\
  InvalidTaxRate = InvalidTaxRate.
Proof.
  split; [reflexivity|].
  apply error_messages_distinct. reflexivity.
Defined.

Lemma staff_password_change_locks_out_witness :
  (staff_change_password model_hash (cred "boss") "secret" staffed_bank).1 = Ok tt /\
  users (staff_change_password model_hash (cred "boss") "secret" staffed_bank).2
    !! model_hash "boss" (read_line "secret") = Some (mkUser 2%N "boss" Manager) /\
  forall username_buf password_buf r,
    login_page model_hash
      (staff_change_password model_hash (cred "boss") "secret" staffed_bank).2
      username_buf password_buf <> Ok (model_hash "boss" (read_line "secret"), r).
Proof.
  apply (staff_password_change_locks_out model_hash model_hash_inj staffed_bank
           (cred "boss") (mkUser 2%N "boss" Manager) "secret").
  vm_compute. reflexivity.
Defined.

(** The balance at which the overflow guard of [pay_interest] stops firing
    when the interest rate is 0.5. *)
Definition interest_guard : Balance := (Balance_MAX / (1 + 0.5))%float.

Definition guard_ops : list Op :=
  [OpCreateUser "roy" "roy" Customer; OpDeposit (cred "roy") interest_guard;
   OpCreateUser "boss" "boss" Manager; OpSetInterestRate (cred "boss") 0.5%float].

(** Extra property: the saturation of [pay_interest] does not keep balances
    finite. With the interest rate set to 0.5, a Customer holding exactly
    [f64::MAX / 1.5] passes the guard [balance > f64::MAX / (1 + rate)]
    (it is not greater), and [balance * 1.5] rounds to +infinity, which
    [pay_interest] stores. *)
Theorem pay_interest_guard_overflows :
  balances (run model_hash Bank_default guard_ops) !! 1%N = Some interest_guard /\
  (interest_guard <? infinity)%float = true /\
  interest_rate (run model_hash Bank_default guard_ops) = 0.5%float /\
  balances (run model_hash Bank_default (guard_ops ++ [OpPayInterest (cred "boss")]))
    !! 1%N = Some infinity.
Proof. split_conj; vm_compute; reflexivity. Qed.
